(** * Log analyzer of the obsidian-vault automation: a shallow embedding

    This development embeds [automation/src/obsidian_vault/log_analyzer.py]
    and proves properties of its analyzer ([analyse_lines],
    [analyse_log_text]) and its reporter ([IssueSummary.recommendations],
    [render_report]).

    Python values are modelled as follows.
    - A [str] is a list of Unicode code points ([N]).
    - An [int] is a [Z]; a [float] is a binary64 value of [SpecFloat].
    - A [Set[str]] is a [gset]; a [List[str]] is a [list].
    - [None | int] is an [option Z].
    - A call that may raise returns a [result]. *)

From Stdlib Require Import ZArith NArith List String Ascii Bool Lia.
From Stdlib Require Import DecimalString.
From Stdlib Require Floats.SpecFloat.
From stdpp Require Import base decidable countable gmap sets list sorting.

Import ListNotations.

Set Default Proof Using "Type".

(** ** Characters and strings *)

Abbreviation char := N (only parsing).
Abbreviation str := (list N) (only parsing).

(** An ASCII literal of the source as a Python [str]. *)
Definition u (s : string) : str := List.map N_of_ascii (list_ascii_of_string s).

(** ** Exceptions *)

Inductive exn : Type :=
| ValueError
| ZeroDivisionError
| OverflowError.

Inductive result (A : Type) : Type :=
| Ok (a : A)
| Raise (e : exn).

Arguments Ok {A} a.
Arguments Raise {A} e.

Global Instance result_ret : MRet result := fun A a => Ok a.

Global Instance result_bind : MBind result := fun A B f m =>
  match m with
  | Ok a => f a
  | Raise e => Raise e
  end.

(** ** Unicode character classes of CPython *)

Definition in_range (lo hi c : N) : bool := ((lo <=? c) && (c <=? hi))%N.

(** [Py_UNICODE_ISSPACE], used by [str.split()] and by [int()]. *)
Definition Py_UNICODE_ISSPACE (c : char) : bool :=
  in_range 9 13 c || in_range 28 32 c || (c =? 133)%N || (c =? 160)%N
  || (c =? 5760)%N || in_range 8192 8202 c || (c =? 8232)%N || (c =? 8233)%N
  || (c =? 8239)%N || (c =? 8287)%N || (c =? 12288)%N.

(** [Py_UNICODE_ISLINEBREAK], used by [str.splitlines()]. *)
Definition Py_UNICODE_ISLINEBREAK (c : char) : bool :=
  in_range 10 13 c || in_range 28 30 c || (c =? 133)%N
  || (c =? 8232)%N || (c =? 8233)%N.

(** [Py_ISSPACE]: the ASCII white space of C. *)
Definition Py_ISSPACE (c : char) : bool := in_range 9 13 c || (c =? 32)%N.

Definition ascii_digit (c : char) : option N :=
  if in_range 48 57 c then Some (c - 48)%N else None.

Definition ascii_tolower (c : char) : char :=
  if in_range 65 90 c then (c + 32)%N else c.

Definition ascii_isalpha (c : char) : bool := in_range 65 90 c || in_range 97 122 c.

(** ** String primitives *)

(** [needle in hay] *)
Fixpoint starts_with (w s : str) : bool :=
  match w, s with
  | [], _ => true
  | a :: w', b :: s' => (a =? b)%N && starts_with w' s'
  | _ :: _, [] => false
  end.

Fixpoint contains (w s : str) : bool :=
  starts_with w s ||
  match s with
  | [] => false
  | _ :: s' => contains w s'
  end.

(** [s.split()]: the maximal runs of non-space characters, left to right.
    [cur] holds the token being read. *)
Fixpoint split_aux (cur : str) (s : str) : list str :=
  match s with
  | [] => if cur is [] then [] else [cur]
  | c :: s' =>
      if Py_UNICODE_ISSPACE c
      then (if cur is [] then split_aux [] s' else cur :: split_aux [] s')
      else split_aux (cur ++ [c]) s'
  end.

Definition split (s : str) : list str := split_aux [] s.

(** [s.strip(chars)] *)
Fixpoint lstrip (chars : str) (s : str) : str :=
  match s with
  | c :: s' => if existsb (N.eqb c) chars then lstrip chars s' else s
  | [] => []
  end.

Definition rstrip (chars : str) (s : str) : str := rev (lstrip chars (rev s)).

Definition strip (chars : str) (s : str) : str := rstrip chars (lstrip chars s).

(** [s.splitlines()]: a line ends at a line break; ["\r\n"] is one break;
    a final line without a break is kept when it is not empty. *)
Fixpoint splitlines_aux (cur : str) (s : str) : list str :=
  match s with
  | [] => if cur is [] then [] else [cur]
  | c :: s' =>
      if Py_UNICODE_ISLINEBREAK c
      then cur :: match c, s' with
                  | 13%N, 10%N :: s'' => splitlines_aux [] s''
                  | _, _ => splitlines_aux [] s'
                  end
      else splitlines_aux (cur ++ [c]) s'
  end.

Definition splitlines (s : str) : list str := splitlines_aux [] s.

(** [sep.join(items)] *)
Fixpoint join (sep : str) (items : list str) : str :=
  match items with
  | [] => []
  | [x] => x
  | x :: rest => x ++ sep ++ join sep rest
  end.

(** Comparison of strings: lexicographic on code points. *)
Fixpoint str_leb (a b : str) : bool :=
  match a, b with
  | [], _ => true
  | _ :: _, [] => false
  | x :: a', y :: b' => (x <? y)%N || ((x =? y)%N && str_leb a' b')
  end.

Definition str_le (a b : str) : Prop := str_leb a b = true.

Global Instance str_le_dec (a b : str) : Decision (str_le a b).
Proof. unfold str_le. apply _. Defined.

(** The line feed, as in ["\n".join(lines)]. *)
Definition newline : str := [10%N].

(** [sorted(xs)] on strings. *)
Definition sorted (xs : list str) : list str := merge_sort str_le xs.

(** [str(n)] without the length check: sign and decimal digits. *)
Definition decimal (n : Z) : str := u (NilEmpty.string_of_int (Z.to_int n)).

Definition decimal_digits (n : Z) : N :=
  N.of_nat (length (decimal (Z.abs n))).

(** ** Binary64 floats *)

Definition float : Type := SpecFloat.spec_float.
Definition prec : Z := 53.
Definition emax : Z := 1024.

(** [a / b] on two ints ([long_true_divide]): the quotient rounded once to
    the nearest binary64 value, ties to even. *)
Definition int_true_divide (a b : Z) : result float :=
  match b, a with
  | Z0, _ => Raise ZeroDivisionError
  | _, Z0 => Ok (SpecFloat.S754_zero (b <? 0)%Z)
  | _, _ =>
      match SpecFloat.SFdiv prec emax
              (SpecFloat.S754_finite (a <? 0)%Z (Z.to_pos (Z.abs a)) 0)
              (SpecFloat.S754_finite (b <? 0)%Z (Z.to_pos (Z.abs b)) 0) with
      | SpecFloat.S754_infinity _ => Raise OverflowError
      | q => Ok q
      end
  end.

(** [m * 2^e * 10] rounded to the nearest integer, ties to even. *)
Definition round_tenths (m : positive) (e : Z) : Z :=
  match e with
  | Zneg p =>
      let d := (2 ^ Zpos p)%Z in
      let q := (Zpos m * 10 / d)%Z in
      let r := (Zpos m * 10 mod d)%Z in
      match (2 * r ?= d)%Z with
      | Lt => q
      | Gt => (q + 1)%Z
      | Eq => if Z.even q then q else (q + 1)%Z
      end
  | _ => (Zpos m * 2 ^ e * 10)%Z
  end.

Definition sign_str (s : bool) : str := if s then u "-" else [].

(** [format(x, ".1f")] *)
Definition format_fixed1 (x : float) : str :=
  match x with
  | SpecFloat.S754_nan => u "nan"
  | SpecFloat.S754_infinity s => sign_str s ++ u "inf"
  | SpecFloat.S754_zero s => sign_str s ++ u "0.0"
  | SpecFloat.S754_finite s m e =>
      let t := round_tenths m e in
      sign_str s ++ decimal (t / 10) ++ u "." ++ decimal (t mod 10)
  end.

Definition hundred : float := SpecFloat.binary_normalize prec emax 100 0 false.

(** [format(x, ".1%")]: [x * 100] in binary64, fixed notation, one digit
    after the point, then a percent sign. *)
Definition format_percent1 (x : float) : str :=
  format_fixed1 (SpecFloat.SFmul prec emax x hundred) ++ u "%".

(** ** Regular expressions

    The fragment of [re] that the six patterns of the module use, with a
    backtracking matcher: greedy repetition of a character class, greedy
    option, one capturing group. *)

Inductive regex : Type :=
| Eps
| Chr (p : char -> bool)
| Cat (r1 r2 : regex)
| Opt (r : regex)
| Star (p : char -> bool)
| Grp (r : regex).

Record re_match : Type := { group0 : str; group1 : option str }.

Fixpoint star_k {R : Type} (p : char -> bool) (s : str) (k : str -> option R)
  : option R :=
  match s with
  | c :: s' =>
      if p c
      then match star_k p s' k with
           | Some x => Some x
           | None => k s
           end
      else k s
  | [] => k []
  end.

(** [exec r s g k] matches [r] at the head of [s]; [k] receives the rest of
    the text and the group captured so far, and may refuse, which makes the
    matcher try its next alternative. *)
Fixpoint exec {R : Type} (r : regex) (s : str) (g : option str)
  (k : str -> option str -> option R) : option R :=
  match r with
  | Eps => k s g
  | Chr p =>
      match s with
      | c :: s' => if p c then k s' g else None
      | [] => None
      end
  | Cat r1 r2 => exec r1 s g (fun s1 g1 => exec r2 s1 g1 k)
  | Opt r1 =>
      match exec r1 s g k with
      | Some x => Some x
      | None => k s g
      end
  | Star p => star_k p s (fun s' => k s' g)
  | Grp r1 =>
      exec r1 s g (fun s1 _ => k s1 (Some (take (length s - length s1) s)))
  end.

Definition match_at (r : regex) (s : str) : option re_match :=
  exec r s None
    (fun s' g => Some {| group0 := take (length s - length s') s; group1 := g |}).

(** [r.search(s)]: the match at the leftmost position that has one. *)
Fixpoint search (r : regex) (s : str) : option re_match :=
  match match_at r s with
  | Some m => Some m
  | None =>
      match s with
      | [] => None
      | _ :: s' => search r s'
      end
  end.

Definition chars (test : char -> char -> bool) (w : string) : regex :=
  foldr (fun c r => Cat (Chr (test c)) r) Eps (u w).

Definition lit (w : string) : regex := chars N.eqb w.

Definition plus (p : char -> bool) : regex := Cat (Chr p) (Star p).

Definition is_hex (c : char) : bool :=
  in_range 48 57 c || in_range 65 70 c || in_range 97 102 c.

Definition not_char (x : char) (c : char) : bool := negb (c =? x)%N.

(** ** The analyzer and the reporter *)

Section Interpreter.

(** Three tables of the interpreter that the module relies on and does not
    fix: the decimal value and the lower-case mapping of the characters
    outside ASCII (both change with the Unicode version), and the limit of
    [sys.get_int_max_str_digits()] on conversions between [int] and [str]
    ([0] switches the limit off). *)
Variable unicode_decimal : char -> option N.
Variable unicode_tolower : char -> char.
Variable max_str_digits : N.

(** [Py_UNICODE_TODECIMAL]; the class [\d] of [re] is its domain. *)
Definition Py_UNICODE_TODECIMAL (c : char) : option N :=
  if (c <? 128)%N then ascii_digit c else unicode_decimal c.

Definition Py_UNICODE_ISDECIMAL (c : char) : bool :=
  if Py_UNICODE_TODECIMAL c is Some _ then true else false.

(** The conversion is refused above the limit, which applies to numbers of
    more than 640 digits only. *)
Definition exceeds_max_str_digits (ndigits : N) : bool :=
  ((640 <? ndigits) && (0 <? max_str_digits) && (max_str_digits <? ndigits))%N.

(** *** [int(s)] *)

(** [_PyUnicode_TransformDecimalAndSpaceToASCII], on one character. *)
Definition to_ascii_decimal (c : char) : char :=
  if (c <? 127)%N then c
  else if Py_UNICODE_ISSPACE c then 32%N
  else match Py_UNICODE_TODECIMAL c with
       | Some d => (48 + d)%N
       | None => 63%N
       end.

(** The digit loop of [long_from_string_base]: digits with single
    underscores between them. [prev] is the character read before. *)
Fixpoint scan_digits (prev : char) (acc : Z) (n : N) (s : str)
  : option (Z * N * str) :=
  match s with
  | c :: s' =>
      if (c =? 95)%N
      then (if (prev =? 95)%N then None else scan_digits c acc n s')
      else match ascii_digit c with
           | Some d => scan_digits c (acc * 10 + Z.of_N d)%Z (n + 1)%N s'
           | None => if (prev =? 95)%N then None else Some (acc, n, s)
           end
  | [] => if (prev =? 95)%N then None else Some (acc, n, [])
  end.

Fixpoint skip_spaces (s : str) : str :=
  match s with
  | c :: s' => if Py_ISSPACE c then skip_spaces s' else s
  | [] => []
  end.

Definition split_sign (s : str) : bool * str :=
  match s with
  | 43%N :: r => (false, r)
  | 45%N :: r => (true, r)
  | _ => (false, s)
  end.

(** [int(s)] for a [str] argument, base ten ([PyLong_FromString]). *)
Definition py_int (s : str) : result Z :=
  let '(neg, body) := split_sign (skip_spaces (List.map to_ascii_decimal s)) in
  if starts_with [95%N] body then Raise ValueError
  else match scan_digits 0%N 0%Z 0%N body with
       | None => Raise ValueError
       | Some (v, n, rest) =>
           if (n =? 0)%N then Raise ValueError
           else if exceeds_max_str_digits n then Raise ValueError
           else if skip_spaces rest is [] then Ok (if neg then (- v)%Z else v)
           else Raise ValueError
       end.

(** [str(n)] for an [int], as an f-string field does it. *)
Definition py_str (n : Z) : result str :=
  if exceeds_max_str_digits (decimal_digits n) then Raise ValueError
  else Ok (decimal n).

(** *** The patterns *)

(** [sre_lower_unicode] *)
Definition sre_lower_unicode (c : char) : char :=
  if (c <? 128)%N then ascii_tolower c else unicode_tolower c.

(** The entries of [_ignorecase_fixes] for ASCII letters: dotless i for
    [i], long s for [s]. *)
Definition ignorecase_fixes (lo : char) : list char :=
  if (lo =? 105)%N then [305%N]
  else if (lo =? 115)%N then [383%N]
  else [].

(** A literal [c] of a pattern compiled with [re.IGNORECASE] against the
    character [t] of the text. *)
Definition ignorecase_eq (c t : char) : bool :=
  if ascii_isalpha c
  then let lo := ascii_tolower c in
       let l := sre_lower_unicode t in
       (l =? lo)%N || existsb (N.eqb l) (ignorecase_fixes lo)
  else (t =? c)%N.

Definition liti (w : string) : regex := chars ignorecase_eq w.

(** [Type name '([^']+)' found without backticks] *)
Definition _MISSING_BACKTICKS_RE : regex :=
  Cat (lit "Type name '")
    (Cat (Grp (plus (not_char 39))) (lit "' found without backticks")).

(** [Oscillation detected.*] *)
Definition _OSCILLATION_RE : regex :=
  Cat (lit "Oscillation detected") (Star (not_char 10)).

(** [unacceptable character #x([0-9A-Fa-f]{4})] *)
Definition _UNACCEPTABLE_CHAR_RE : regex :=
  Cat (lit "unacceptable character #x")
    (Grp (Cat (Chr is_hex) (Cat (Chr is_hex) (Cat (Chr is_hex) (Chr is_hex))))).

(** [Recursion limit of (\d+) reached] *)
Definition _RECURSION_LIMIT_RE : regex :=
  Cat (lit "Recursion limit of ")
    (Cat (Grp (plus Py_UNICODE_ISDECIMAL)) (lit " reached")).

(** [status set to 'draft'], ignoring case *)
Definition _STATUS_DRAFT_RE : regex := liti "status set to 'draft'".

(** [future(?:-looking)? dates?], ignoring case *)
Definition _FUTURE_DATE_RE : regex :=
  Cat (liti "future")
    (Cat (Opt (liti "-looking")) (Cat (liti " date") (Opt (liti "s")))).

(** [match.group(1)] of a match whose group took part. *)
Definition group_1 (m : re_match) : str := default [] (group1 m).

(** [s.lower()] on the ASCII letters; the module applies it to four
    hexadecimal digits only. *)
Definition lower (s : str) : str := List.map ascii_tolower s.

(** *** The summary *)

Record IssueSummary : Type := {
  oscillation_messages : list str;
  missing_backticks : gset str;
  unacceptable_control_codes : gset str;
  recursion_limit_hits : Z;
  qa_verification_none_errors : Z;
  draft_status_notes : Z;
  future_dated_metadata_notes : Z;
  notes_processed : option Z;
  notes_with_errors : option Z
}.

(** [IssueSummary()] *)
Definition empty_summary : IssueSummary :=
  {| oscillation_messages := [];
     missing_backticks := ∅;
     unacceptable_control_codes := ∅;
     recursion_limit_hits := 0;
     qa_verification_none_errors := 0;
     draft_status_notes := 0;
     future_dated_metadata_notes := 0;
     notes_processed := None;
     notes_with_errors := None |}.

Definition set_oscillation_messages (v : list str) (s : IssueSummary) :=
  {| oscillation_messages := v;
     missing_backticks := missing_backticks s;
     unacceptable_control_codes := unacceptable_control_codes s;
     recursion_limit_hits := recursion_limit_hits s;
     qa_verification_none_errors := qa_verification_none_errors s;
     draft_status_notes := draft_status_notes s;
     future_dated_metadata_notes := future_dated_metadata_notes s;
     notes_processed := notes_processed s;
     notes_with_errors := notes_with_errors s |}.

Definition set_missing_backticks (v : gset str) (s : IssueSummary) :=
  {| oscillation_messages := oscillation_messages s;
     missing_backticks := v;
     unacceptable_control_codes := unacceptable_control_codes s;
     recursion_limit_hits := recursion_limit_hits s;
     qa_verification_none_errors := qa_verification_none_errors s;
     draft_status_notes := draft_status_notes s;
     future_dated_metadata_notes := future_dated_metadata_notes s;
     notes_processed := notes_processed s;
     notes_with_errors := notes_with_errors s |}.

Definition set_unacceptable_control_codes (v : gset str) (s : IssueSummary) :=
  {| oscillation_messages := oscillation_messages s;
     missing_backticks := missing_backticks s;
     unacceptable_control_codes := v;
     recursion_limit_hits := recursion_limit_hits s;
     qa_verification_none_errors := qa_verification_none_errors s;
     draft_status_notes := draft_status_notes s;
     future_dated_metadata_notes := future_dated_metadata_notes s;
     notes_processed := notes_processed s;
     notes_with_errors := notes_with_errors s |}.

Definition set_recursion_limit_hits (v : Z) (s : IssueSummary) :=
  {| oscillation_messages := oscillation_messages s;
     missing_backticks := missing_backticks s;
     unacceptable_control_codes := unacceptable_control_codes s;
     recursion_limit_hits := v;
     qa_verification_none_errors := qa_verification_none_errors s;
     draft_status_notes := draft_status_notes s;
     future_dated_metadata_notes := future_dated_metadata_notes s;
     notes_processed := notes_processed s;
     notes_with_errors := notes_with_errors s |}.

Definition set_qa_verification_none_errors (v : Z) (s : IssueSummary) :=
  {| oscillation_messages := oscillation_messages s;
     missing_backticks := missing_backticks s;
     unacceptable_control_codes := unacceptable_control_codes s;
     recursion_limit_hits := recursion_limit_hits s;
     qa_verification_none_errors := v;
     draft_status_notes := draft_status_notes s;
     future_dated_metadata_notes := future_dated_metadata_notes s;
     notes_processed := notes_processed s;
     notes_with_errors := notes_with_errors s |}.

Definition set_draft_status_notes (v : Z) (s : IssueSummary) :=
  {| oscillation_messages := oscillation_messages s;
     missing_backticks := missing_backticks s;
     unacceptable_control_codes := unacceptable_control_codes s;
     recursion_limit_hits := recursion_limit_hits s;
     qa_verification_none_errors := qa_verification_none_errors s;
     draft_status_notes := v;
     future_dated_metadata_notes := future_dated_metadata_notes s;
     notes_processed := notes_processed s;
     notes_with_errors := notes_with_errors s |}.

Definition set_future_dated_metadata_notes (v : Z) (s : IssueSummary) :=
  {| oscillation_messages := oscillation_messages s;
     missing_backticks := missing_backticks s;
     unacceptable_control_codes := unacceptable_control_codes s;
     recursion_limit_hits := recursion_limit_hits s;
     qa_verification_none_errors := qa_verification_none_errors s;
     draft_status_notes := draft_status_notes s;
     future_dated_metadata_notes := v;
     notes_processed := notes_processed s;
     notes_with_errors := notes_with_errors s |}.

Definition set_notes_processed (v : option Z) (s : IssueSummary) :=
  {| oscillation_messages := oscillation_messages s;
     missing_backticks := missing_backticks s;
     unacceptable_control_codes := unacceptable_control_codes s;
     recursion_limit_hits := recursion_limit_hits s;
     qa_verification_none_errors := qa_verification_none_errors s;
     draft_status_notes := draft_status_notes s;
     future_dated_metadata_notes := future_dated_metadata_notes s;
     notes_processed := v;
     notes_with_errors := notes_with_errors s |}.

Definition set_notes_with_errors (v : option Z) (s : IssueSummary) :=
  {| oscillation_messages := oscillation_messages s;
     missing_backticks := missing_backticks s;
     unacceptable_control_codes := unacceptable_control_codes s;
     recursion_limit_hits := recursion_limit_hits s;
     qa_verification_none_errors := qa_verification_none_errors s;
     draft_status_notes := draft_status_notes s;
     future_dated_metadata_notes := future_dated_metadata_notes s;
     notes_processed := notes_processed s;
     notes_with_errors := v |}.

(** Truth value of an [int] and of a set. *)
Definition truthy (n : Z) : bool := negb (n =? 0)%Z.

Definition nonempty (x : gset str) : bool := negb (bool_decide (x = ∅)).

(** [x or 0] for [x : int | None] *)
Definition or_zero (x : option Z) : Z :=
  match x with
  | Some v => if truthy v then v else 0%Z
  | None => 0%Z
  end.

(** *** [IssueSummary.recommendations] *)

Definition recommendations (self : IssueSummary) : result (list str) :=
  let advice : list str := [] in
  let advice :=
    if nonempty (missing_backticks self)
    then let types := join (u ", ") (sorted (elements (missing_backticks self))) in
         advice ++ [u "Wrap Kotlin type identifiers in backticks during automated fixes to "
                    ++ u "avoid validator oscillation (missing: " ++ types ++ u ")."]
    else advice in
  let advice :=
    if oscillation_messages self is [] then advice
    else advice ++ [u "Tune the fixer/validator handshake: automatically short-circuit after "
                    ++ u "two oscillating iterations and flag the note for manual review with "
                    ++ u "the concrete validator payload."] in
  let advice :=
    if truthy (future_dated_metadata_notes self)
    then advice ++ [u "Allow the metadata fixer to normalise future-dated timestamps when "
                    ++ u "they exceed the allowed threshold instead of repeatedly deferring to "
                    ++ u "manual review."]
    else advice in
  let advice :=
    if truthy (draft_status_notes self)
    then advice ++ [u "Escalate draft-status warnings with context so reviewers can make a "
                    ++ u "publishability decision without combing through raw logs."]
    else advice in
  let advice :=
    if nonempty (unacceptable_control_codes self)
    then let hex_codes :=
           join (u ", ") (sorted (elements (unacceptable_control_codes self))) in
         advice ++ [u "Strip non-printable control characters (e.g. 0x"
                    ++ hex_codes ++ u ")."]
    else advice in
  let advice :=
    if truthy (recursion_limit_hits self)
    then advice ++ [u "Increase the LangGraph recursion limit or implement stronger guard "
                    ++ u "rails on fix-planning loops to prevent runaway iterations."]
    else advice in
  let advice :=
    if truthy (qa_verification_none_errors self)
    then advice ++ [u "Guard QA verification against None results before membership tests "
                    ++ u "so automation no longer crashes on 'NoneType' iterable checks."]
    else advice in
  match notes_processed self, notes_with_errors self with
  | Some processed, Some errors =>
      if (0 <? errors)%Z
      then rate ← int_true_divide errors processed;
           e ← py_str errors;
           p ← py_str processed;
           Ok (advice ++ [u "Investigate systemic issues: " ++ e ++ u " of " ++ p ++ u " "
                          ++ u "notes (" ++ format_percent1 rate
                          ++ u ") still end in errors despite modifications."])
      else Ok advice
  | _, _ => Ok advice
  end.

(** *** [analyse_lines] *)

(** The table-border character U+2502. *)
Definition border : str := [9474%N].

(** The loop of [_extract_last_int_from] over the reversed tokens. *)
Fixpoint extract_loop (tokens : list str) : result (option Z) :=
  match tokens with
  | [] => Ok None
  | token :: rest =>
      let token := strip border token in
      if token is [] then extract_loop rest
      else match py_int token with
           | Ok v => Ok (Some v)
           | Raise ValueError => extract_loop rest
           | Raise e => Raise e
           end
  end.

Definition _extract_last_int_from (line : str) : result (option Z) :=
  extract_loop (rev (split line)).

(** The body of the loop of [analyse_lines] on one line. *)
Definition analyse_line (summary : IssueSummary) (line : str)
  : result IssueSummary :=
  let summary :=
    if search _MISSING_BACKTICKS_RE line is Some m
    then set_missing_backticks (missing_backticks summary ∪ {[ group_1 m ]}) summary
    else summary in
  let summary :=
    if search _OSCILLATION_RE line is Some m
    then set_oscillation_messages (oscillation_messages summary ++ [group0 m]) summary
    else summary in
  let summary :=
    if search _UNACCEPTABLE_CHAR_RE line is Some m
    then set_unacceptable_control_codes
           (unacceptable_control_codes summary ∪ {[ lower (group_1 m) ]}) summary
    else summary in
  let summary :=
    if search _RECURSION_LIMIT_RE line is Some m
    then set_recursion_limit_hits (recursion_limit_hits summary + 1)%Z summary
    else summary in
  let summary :=
    if contains (u "argument of type 'NoneType' is not iterable") line
    then set_qa_verification_none_errors
           (qa_verification_none_errors summary + 1)%Z summary
    else summary in
  let summary :=
    if search _STATUS_DRAFT_RE line is Some _
    then set_draft_status_notes (draft_status_notes summary + 1)%Z summary
    else summary in
  let summary :=
    if search _FUTURE_DATE_RE line is Some _
    then set_future_dated_metadata_notes
           (future_dated_metadata_notes summary + 1)%Z summary
    else summary in
  summary ←
    (if contains (u "Notes Processed") line
     then value ← _extract_last_int_from line;
          Ok (if value is Some v then set_notes_processed (Some v) summary
              else summary)
     else Ok summary);
  if contains (u "Errors") line && negb (contains (u "Metric") line)
  then value ← _extract_last_int_from line;
       Ok (if value is Some v then set_notes_with_errors (Some v) summary
           else summary)
  else Ok summary.

Fixpoint analyse_loop (summary : IssueSummary) (lines : list str)
  : result IssueSummary :=
  match lines with
  | [] => Ok summary
  | line :: rest =>
      summary ← analyse_line summary line;
      analyse_loop summary rest
  end.

Definition analyse_lines (lines : list str) : result IssueSummary :=
  analyse_loop empty_summary lines.

(** *** [analyse_log_text] *)

Definition analyse_log_text (text : str) : result IssueSummary :=
  analyse_lines (splitlines text).

(** *** [render_report] *)

Definition render_report (summary : IssueSummary) : result str :=
  let lines : list str := [] in
  let lines := lines ++ [u "LLM review log analysis"] in
  let lines := lines ++ [u "========================"] in
  lines ←
    (if notes_processed summary is Some processed
     then let errors := or_zero (notes_with_errors summary) in
          p ← py_str processed;
          e ← py_str errors;
          Ok (lines ++ [u "Processed notes: " ++ p ++ u " (errors: " ++ e ++ u ")"])
     else Ok lines);
  let lines :=
    if oscillation_messages summary is [] then lines
    else let lines := lines ++ [[]] in
         let lines := lines ++ [u "Oscillation detected in validators:"] in
         foldl (fun lines msg => lines ++ [u "  - " ++ msg]) lines
           (oscillation_messages summary) in
  let lines :=
    if nonempty (missing_backticks summary)
    then let lines := lines ++ [[]] in
         let missing := join (u ", ") (sorted (elements (missing_backticks summary))) in
         lines ++ [u "Missing backticks around Kotlin types: " ++ missing]
    else lines in
  let lines :=
    if nonempty (unacceptable_control_codes summary)
    then let codes :=
           join (u ", ") (sorted (elements (unacceptable_control_codes summary))) in
         lines ++ [u "Control character crashes encountered: " ++ codes]
    else lines in
  lines ←
    (if truthy (recursion_limit_hits summary)
     then n ← py_str (recursion_limit_hits summary);
          Ok (lines ++ [u "Recursion limit hit: " ++ n ++ u " time(s)"])
     else Ok lines);
  lines ←
    (if truthy (qa_verification_none_errors summary)
     then n ← py_str (qa_verification_none_errors summary);
          Ok (lines ++ [u "QA verification NoneType errors: " ++ n ++ u " occurrence(s)"])
     else Ok lines);
  lines ←
    (if truthy (future_dated_metadata_notes summary)
     then n ← py_str (future_dated_metadata_notes summary);
          Ok (lines ++ [u "Future-dated metadata warnings: " ++ n ++ u " occurrence(s)"])
     else Ok lines);
  lines ←
    (if truthy (draft_status_notes summary)
     then n ← py_str (draft_status_notes summary);
          Ok (lines ++ [u "Draft-status metadata warnings: " ++ n ++ u " occurrence(s)"])
     else Ok lines);
  advice ← recommendations summary;
  let lines :=
    if advice is [] then lines
    else let lines := lines ++ [[]] in
         let lines := lines ++ [u "Recommended follow-up actions:"] in
         foldl (fun lines item => lines ++ [u "  * " ++ item]) lines advice in
  Ok (join newline lines).

(** ** Notions of the specification *)

(** *** Tokens and their integer value *)

(** The integer that a white-space delimited token stands for, once the
    table border is stripped from both of its ends; [None] when it is not
    an integer. *)
Definition token_value (token : str) : option Z :=
  match py_int (strip border token) with
  | Ok v => Some v
  | Raise _ => None
  end.

(** The value of the last token of the line that is an integer. *)
Definition last_int (line : str) : option Z :=
  last (omap token_value (split line)).

(** The metric that a line reports for [notes_processed], if any. *)
Definition processed_metric (line : str) : option Z :=
  if contains (u "Notes Processed") line then last_int line else None.

(** The metric that a line reports for [notes_with_errors], if any. *)
Definition errors_metric (line : str) : option Z :=
  if contains (u "Errors") line && negb (contains (u "Metric") line)
  then last_int line else None.

(** A metric either replaces the value of the field or leaves it. *)
Definition overwrite (old : option Z) (metric : option Z) : option Z :=
  match metric with
  | Some v => Some v
  | None => old
  end.

(** *** The nine detectors

    Each statement of the loop body of [analyse_lines], as a function of
    the line and of the summary. *)

Definition detect_missing_backticks (line : str) (s : IssueSummary) :=
  if search _MISSING_BACKTICKS_RE line is Some m
  then set_missing_backticks (missing_backticks s ∪ {[ group_1 m ]}) s
  else s.

Definition detect_oscillation (line : str) (s : IssueSummary) :=
  if search _OSCILLATION_RE line is Some m
  then set_oscillation_messages (oscillation_messages s ++ [group0 m]) s
  else s.

Definition detect_control_code (line : str) (s : IssueSummary) :=
  if search _UNACCEPTABLE_CHAR_RE line is Some m
  then set_unacceptable_control_codes
         (unacceptable_control_codes s ∪ {[ lower (group_1 m) ]}) s
  else s.

Definition detect_recursion_limit (line : str) (s : IssueSummary) :=
  if search _RECURSION_LIMIT_RE line is Some m
  then set_recursion_limit_hits (recursion_limit_hits s + 1)%Z s
  else s.

Definition detect_qa_none (line : str) (s : IssueSummary) :=
  if contains (u "argument of type 'NoneType' is not iterable") line
  then set_qa_verification_none_errors (qa_verification_none_errors s + 1)%Z s
  else s.

Definition detect_draft_status (line : str) (s : IssueSummary) :=
  if search _STATUS_DRAFT_RE line is Some _
  then set_draft_status_notes (draft_status_notes s + 1)%Z s
  else s.

Definition detect_future_date (line : str) (s : IssueSummary) :=
  if search _FUTURE_DATE_RE line is Some _
  then set_future_dated_metadata_notes (future_dated_metadata_notes s + 1)%Z s
  else s.

Definition detect_notes_processed (line : str) (s : IssueSummary) :=
  if contains (u "Notes Processed") line
  then (if last_int line is Some v then set_notes_processed (Some v) s else s)
  else s.

Definition detect_notes_with_errors (line : str) (s : IssueSummary) :=
  if contains (u "Errors") line && negb (contains (u "Metric") line)
  then (if last_int line is Some v then set_notes_with_errors (Some v) s else s)
  else s.

Definition detectors (line : str) (s : IssueSummary) : IssueSummary :=
  detect_notes_with_errors line
    (detect_notes_processed line
       (detect_future_date line
          (detect_draft_status line
             (detect_qa_none line
                (detect_recursion_limit line
                   (detect_control_code line
                      (detect_oscillation line
                         (detect_missing_backticks line s)))))))).

(** *** The oscillation warning of a line *)

Fixpoint take_while (p : char -> bool) (s : str) : str :=
  match s with
  | c :: s' => if p c then c :: take_while p s' else []
  | [] => []
  end.

Fixpoint drop_while (p : char -> bool) (s : str) : str :=
  match s with
  | c :: s' => if p c then drop_while p s' else s
  | [] => []
  end.

(** The text from the first occurrence of [w] in [s] to the end of [s]. *)
Fixpoint suffix_from (w s : str) : option str :=
  if starts_with w s then Some s
  else match s with
       | [] => None
       | _ :: s' => suffix_from w s'
       end.

Definition oscillation_phrase : str := u "Oscillation detected".

(** The warning that a line carries: its text from the first
    [Oscillation detected] up to the next line feed or the end. *)
Definition oscillation_entry (line : str) : option str :=
  take_while (not_char 10) <$> suffix_from oscillation_phrase line.

(** *** The invariant of a scan *)

Record summary_le (a b : IssueSummary) : Prop := {
  le_recursion : (recursion_limit_hits a <= recursion_limit_hits b)%Z;
  le_qa : (qa_verification_none_errors a <= qa_verification_none_errors b)%Z;
  le_draft : (draft_status_notes a <= draft_status_notes b)%Z;
  le_future : (future_dated_metadata_notes a <= future_dated_metadata_notes b)%Z;
  le_backticks : missing_backticks a ⊆ missing_backticks b;
  le_codes : unacceptable_control_codes a ⊆ unacceptable_control_codes b;
  le_oscillation : oscillation_messages a `prefix_of` oscillation_messages b;
  le_processed : is_Some (notes_processed a) -> is_Some (notes_processed b);
  le_errors : is_Some (notes_with_errors a) -> is_Some (notes_with_errors b)
}.

(** *** Lines of a text *)

Definition no_linebreak (line : str) : Prop :=
  Forall (fun c => Py_UNICODE_ISLINEBREAK c = false) line.

(** *** The sections of the report, in the order of the template *)

Definition banner : list str :=
  [u "LLM review log analysis"; u "========================"].

Definition processed_section (s : IssueSummary) : result (list str) :=
  match notes_processed s with
  | Some processed =>
      p ← py_str processed;
      e ← py_str (default 0%Z (notes_with_errors s));
      Ok [u "Processed notes: " ++ p ++ u " (errors: " ++ e ++ u ")"]
  | None => Ok []
  end.

Definition oscillation_section (s : IssueSummary) : list str :=
  match oscillation_messages s with
  | [] => []
  | msgs => [[]; u "Oscillation detected in validators:"]
            ++ List.map (fun msg => u "  - " ++ msg) msgs
  end.

Definition sorted_names (x : gset str) : str :=
  join (u ", ") (sorted (elements x)).

Definition backticks_section (s : IssueSummary) : list str :=
  if decide (missing_backticks s = ∅) then []
  else [[]; u "Missing backticks around Kotlin types: "
            ++ sorted_names (missing_backticks s)].

Definition control_codes_section (s : IssueSummary) : list str :=
  if decide (unacceptable_control_codes s = ∅) then []
  else [u "Control character crashes encountered: "
        ++ sorted_names (unacceptable_control_codes s)].

Definition count_section (label : str) (n : Z) (unit : str) : result (list str) :=
  if decide (n = 0%Z) then Ok []
  else d ← py_str n; Ok [label ++ d ++ unit].

Definition recommendations_section (s : IssueSummary) : result (list str) :=
  advice ← recommendations s;
  Ok match advice with
     | [] => []
     | _ => [[]; u "Recommended follow-up actions:"]
            ++ List.map (fun item => u "  * " ++ item) advice
     end.

(** The report as the template describes it. *)
Definition report_template (s : IssueSummary) : result str :=
  processed ← processed_section s;
  recursion ← count_section (u "Recursion limit hit: ")
                 (recursion_limit_hits s) (u " time(s)");
  qa ← count_section (u "QA verification NoneType errors: ")
          (qa_verification_none_errors s) (u " occurrence(s)");
  future ← count_section (u "Future-dated metadata warnings: ")
              (future_dated_metadata_notes s) (u " occurrence(s)");
  draft ← count_section (u "Draft-status metadata warnings: ")
             (draft_status_notes s) (u " occurrence(s)");
  advice ← recommendations_section s;
  Ok (join newline
        (banner ++ processed ++ oscillation_section s ++ backticks_section s
         ++ control_codes_section s ++ recursion ++ qa ++ future ++ draft
         ++ advice)).

(** *** The recommendations *)


(** The trigger of the systemic-issues recommendation. *)
Definition systemic_trigger (s : IssueSummary) : Prop :=
  exists processed errors : Z,
    notes_processed s = Some processed /\ notes_with_errors s = Some errors
    /\ (0 < errors)%Z.


(** The seven recommendations that come before the systemic one. *)
Definition opt_item (c : bool) (x : str) : list str := if c then [x] else [].

Definition basic_advice (s : IssueSummary) : list str :=
  opt_item (nonempty (missing_backticks s))
    (u "Wrap Kotlin type identifiers in backticks during automated fixes to "
     ++ u "avoid validator oscillation (missing: "
     ++ sorted_names (missing_backticks s) ++ u ").")
  ++ opt_item (if oscillation_messages s is [] then false else true)
    (u "Tune the fixer/validator handshake: automatically short-circuit after "
     ++ u "two oscillating iterations and flag the note for manual review with "
     ++ u "the concrete validator payload.")
  ++ opt_item (truthy (future_dated_metadata_notes s))
    (u "Allow the metadata fixer to normalise future-dated timestamps when "
     ++ u "they exceed the allowed threshold instead of repeatedly deferring to "
     ++ u "manual review.")
  ++ opt_item (truthy (draft_status_notes s))
    (u "Escalate draft-status warnings with context so reviewers can make a "
     ++ u "publishability decision without combing through raw logs.")
  ++ opt_item (nonempty (unacceptable_control_codes s))
    (u "Strip non-printable control characters (e.g. 0x"
     ++ sorted_names (unacceptable_control_codes s) ++ u ").")
  ++ opt_item (truthy (recursion_limit_hits s))
    (u "Increase the LangGraph recursion limit or implement stronger guard "
     ++ u "rails on fix-planning loops to prevent runaway iterations.")
  ++ opt_item (truthy (qa_verification_none_errors s))
    (u "Guard QA verification against None results before membership tests "
     ++ u "so automation no longer crashes on 'NoneType' iterable checks.").

(** *** Sample inputs *)

(** An interpreter whose tables hold nothing outside ASCII, with the
    default limit of 4300 digits. *)
Definition ascii_decimal : char -> option N := fun _ => None.
Definition ascii_lower : char -> char := fun c => c.
Definition default_max_str_digits : N := 4300.

Definition line_processed_120 : str := u "Notes Processed " ++ border ++ u " 120".
Definition line_processed_80 : str := u "Notes Processed " ++ border ++ u " 80".
Definition line_processed_none : str := u "Notes Processed: n/a".
Definition line_errors_none : str := u "Errors: none".
Definition line_errors_7 : str := u "Errors " ++ border ++ u " 7 " ++ border.
Definition line_processed_0 : str := u "Notes Processed " ++ border ++ u " 0".
Definition line_errors_1 : str := u "Errors " ++ border ++ u " 1".
Definition line_oscillation_inside : str :=
  u "WARN Oscillation detected in validator".
Definition line_oscillation_start : str := u "Oscillation detected (2 rounds)".

Definition sample_log : list str :=
  [u "2024 WARN Type name 'StateFlow' found without backticks";
   u "2024 WARN Type name 'Flow' found without backticks";
   u "Oscillation detected: rule X keeps flipping";
   u "yaml: unacceptable character #x0004: special characters are not allowed";
   u "GraphRecursionError: Recursion limit of 25 reached without a stop condition";
   u "TypeError: argument of type 'NoneType' is not iterable";
   u "metadata: Status set to 'draft' for note";
   u "metadata: created is a future date";
   u "| Metric | Errors |";
   line_processed_120;
   line_errors_7].

Definition sample_report : str :=
  join newline
    [u "LLM review log analysis";
     u "========================";
     u "Processed notes: 120 (errors: 7)";
     [];
     u "Oscillation detected in validators:";
     u "  - Oscillation detected: rule X keeps flipping";
     [];
     u "Missing backticks around Kotlin types: Flow, StateFlow";
     u "Control character crashes encountered: 0004";
     u "Recursion limit hit: 1 time(s)";
     u "QA verification NoneType errors: 1 occurrence(s)";
     u "Future-dated metadata warnings: 1 occurrence(s)";
     u "Draft-status metadata warnings: 1 occurrence(s)";
     [];
     u "Recommended follow-up actions:";
     u "  * Wrap Kotlin type identifiers in backticks during automated fixes to avoid validator oscillation (missing: Flow, StateFlow).";
     u "  * Tune the fixer/validator handshake: automatically short-circuit after two oscillating iterations and flag the note for manual review with the concrete validator payload.";
     u "  * Allow the metadata fixer to normalise future-dated timestamps when they exceed the allowed threshold instead of repeatedly deferring to manual review.";
     u "  * Escalate draft-status warnings with context so reviewers can make a publishability decision without combing through raw logs.";
     u "  * Strip non-printable control characters (e.g. 0x0004).";
     u "  * Increase the LangGraph recursion limit or implement stronger guard rails on fix-planning loops to prevent runaway iterations.";
     u "  * Guard QA verification against None results before membership tests so automation no longer crashes on 'NoneType' iterable checks.";
     u "  * Investigate systemic issues: 7 of 120 notes (5.8%) still end in errors despite modifications."].

Definition summary_25_of_100 : IssueSummary :=
  set_notes_with_errors (Some 25%Z) (set_notes_processed (Some 100%Z) empty_summary).

Definition summary_1_of_0 : IssueSummary :=
  set_notes_with_errors (Some 1%Z) (set_notes_processed (Some 0%Z) empty_summary).

(** ** Further notions *)

(** *** The language of a pattern *)

(** [matches r s s']: the pattern [r] matches a prefix of [s] and leaves
    [s']. *)
Inductive matches : regex -> str -> str -> Prop :=
| matches_Eps s : matches Eps s s
| matches_Chr p c s : p c = true -> matches (Chr p) (c :: s) s
| matches_Cat r1 r2 s s1 s2 :
    matches r1 s s1 -> matches r2 s1 s2 -> matches (Cat r1 r2) s s2
| matches_Opt_some r s s' : matches r s s' -> matches (Opt r) s s'
| matches_Opt_none r s : matches (Opt r) s s
| matches_Star p run s : forallb p run = true -> matches (Star p) (run ++ s) s
| matches_Grp r s s' : matches r s s' -> matches (Grp r) s s'.

(** [r.search(line)] finds a match. *)
Definition fires (r : regex) (line : str) : bool :=
  if search r line is Some _ then true else false.

Definition is_ascii (s : str) : Prop := Forall (fun c => (c < 128)%N) s.

(** *** A scan as a function of its lines *)

(** The name that the missing-backticks detector takes from a line. *)
Definition backticks_name (line : str) : option str :=
  group_1 <$> search _MISSING_BACKTICKS_RE line.

(** The code that the control-character detector takes from a line. *)
Definition control_code (line : str) : option str :=
  (fun m => lower (group_1 m)) <$> search _UNACCEPTABLE_CHAR_RE line.

Definition count_lines (p : str -> bool) (lines : list str) : Z :=
  Z.of_nat (length (List.filter p lines)).

Definition scan_summary (lines : list str) : IssueSummary :=
  {| oscillation_messages := omap oscillation_entry lines;
     missing_backticks := list_to_set (omap backticks_name lines);
     unacceptable_control_codes := list_to_set (omap control_code lines);
     recursion_limit_hits := count_lines (fires _RECURSION_LIMIT_RE) lines;
     qa_verification_none_errors :=
       count_lines (contains (u "argument of type 'NoneType' is not iterable")) lines;
     draft_status_notes := count_lines (fires _STATUS_DRAFT_RE) lines;
     future_dated_metadata_notes := count_lines (fires _FUTURE_DATE_RE) lines;
     notes_processed := last (omap processed_metric lines);
     notes_with_errors := last (omap errors_metric lines) |}.

(** The summary of a log followed by another log. *)
Definition merge_summary (a b : IssueSummary) : IssueSummary :=
  {| oscillation_messages := oscillation_messages a ++ oscillation_messages b;
     missing_backticks := missing_backticks a ∪ missing_backticks b;
     unacceptable_control_codes :=
       unacceptable_control_codes a ∪ unacceptable_control_codes b;
     recursion_limit_hits := (recursion_limit_hits a + recursion_limit_hits b)%Z;
     qa_verification_none_errors :=
       (qa_verification_none_errors a + qa_verification_none_errors b)%Z;
     draft_status_notes := (draft_status_notes a + draft_status_notes b)%Z;
     future_dated_metadata_notes :=
       (future_dated_metadata_notes a + future_dated_metadata_notes b)%Z;
     notes_processed := overwrite (notes_processed a) (notes_processed b);
     notes_with_errors := overwrite (notes_with_errors a) (notes_with_errors b) |}.

(** *** [analyse_log_file] *)


(** *** Numbers and separators *)


(** The separators that [splitlines] takes for one line break. *)
Definition line_break (sep : str) : Prop :=
  sep = [13%N; 10%N] \/ exists c, sep = [c] /\ Py_UNICODE_ISLINEBREAK c = true.

(** *** Literals of the patterns *)

(** A literal of a pattern that ignores case, as the two patterns of the
    module have them: ASCII, with no capital letter. *)
Definition plain_literal (w : str) : bool :=
  forallb (fun c => (c <? 128)%N && (ascii_tolower c =? c)%N) w.

Definition is_lower_hex (c : char) : bool :=
  in_range 48 57 c || in_range 97 102 c.

(** *** What a report holds *)



(** *** A sample file system *)


(** *** More sample lines *)

Definition line_backticks_flow : str :=
  u "2024 WARN Type name 'Flow' found without backticks".
Definition line_control_00AF : str :=
  u "yaml: unacceptable character #x00AF: special characters are not allowed".
Definition line_recursion_25 : str :=
  u "GraphRecursionError: Recursion limit of 25 reached".
Definition line_qa_none : str :=
  u "TypeError: argument of type 'NoneType' is not iterable".
Definition line_draft_upper : str := u "metadata: Status set to 'DRAFT' for note".
Definition line_future_looking : str := u "created is a Future-Looking dates entry".

(** ** Properties *)

(** *** The result monad *)

Lemma bind_Ok {A B : Type} (m : result A) (f : A -> result B) (b : B) :
  m ≫= f = Ok b <-> exists a, m = Ok a /\ f a = Ok b.
Proof.
  destruct m as [a|e]; simpl; split.
  - intros H. exists a. split; [reflexivity | exact H].
  - intros (a' & Ha & Hf). injection Ha as ->. exact Hf.
  - intros H. discriminate H.
  - intros (a' & Ha & _). discriminate Ha.
Qed.


(** *** [int(s)] raises nothing but [ValueError] *)

Lemma py_int_raises (s : str) (e : exn) : py_int s = Raise e -> e = ValueError.
Proof.
  unfold py_int.
  destruct (split_sign _) as [neg body].
  destruct (starts_with _ body); [congruence |].
  destruct (scan_digits _ _ _ body) as [[[v n] rest]|]; [| congruence].
  destruct (n =? 0)%N; [congruence |].
  destruct (exceeds_max_str_digits n); [congruence |].
  destruct (skip_spaces rest); congruence.
Qed.

Lemma py_int_empty : py_int [] = Raise ValueError.
Proof. reflexivity. Qed.

Lemma token_value_Ok (token : str) (v : Z) :
  py_int (strip border token) = Ok v -> token_value token = Some v.
Proof. unfold token_value. intros ->. reflexivity. Qed.

Lemma token_value_Raise (token : str) (e : exn) :
  py_int (strip border token) = Raise e -> token_value token = None.
Proof. unfold token_value. intros ->. reflexivity. Qed.

(** *** [_extract_last_int_from] *)

Lemma extract_loop_head (tokens : list str) :
  extract_loop tokens = Ok (head (omap token_value tokens)).
Proof.
  induction tokens as [|token rest IH]; [reflexivity |].
  cbn [extract_loop omap list_omap].
  destruct (strip border token) as [|c t] eqn:Hs.
  - rewrite (token_value_Raise token ValueError) by (rewrite Hs; apply py_int_empty).
    exact IH.
  - rewrite <- Hs. destruct (py_int (strip border token)) as [v|e] eqn:Hi.
    + rewrite (token_value_Ok _ _ Hi). reflexivity.
    + rewrite (token_value_Raise _ _ Hi).
      rewrite (py_int_raises _ _ Hi). exact IH.
Qed.

Lemma omap_rev {A B : Type} (f : A -> option B) (l : list A) :
  omap f (rev l) = rev (omap f l).
Proof.
  induction l as [|x l IH]; [reflexivity |].
  simpl rev. rewrite omap_app, IH. cbn [omap list_omap].
  destruct (f x); simpl; rewrite ?app_nil_r; reflexivity.
Qed.

Lemma head_rev {A : Type} (l : list A) : head (rev l) = last l.
Proof. rewrite rev_alt. fold (reverse l). apply head_reverse. Qed.

Lemma extract_last_int (line : str) :
  _extract_last_int_from line = Ok (last_int line).
Proof.
  unfold _extract_last_int_from, last_int.
  rewrite extract_loop_head, omap_rev, head_rev. reflexivity.
Qed.

(** *** Substrings *)

Lemma starts_with_app (w rest : str) : starts_with w (w ++ rest) = true.
Proof.
  induction w as [|a w IH]; [reflexivity |].
  simpl. rewrite N.eqb_refl. exact IH.
Qed.

Lemma starts_with_inv (w s : str) :
  starts_with w s = true -> s = w ++ drop (length w) s.
Proof.
  revert s. induction w as [|a w IH]; intros s H; [reflexivity |].
  destruct s as [|b s]; [discriminate H |].
  simpl in H. apply andb_prop in H as [Hab Hw].
  apply N.eqb_eq in Hab as ->. simpl. f_equal. apply IH, Hw.
Qed.

Lemma contains_suffix_from (w s : str) :
  contains w s = true <-> is_Some (suffix_from w s).
Proof.
  induction s as [|c s IH]; simpl.
  - destruct (starts_with w []); simpl.
    + split; [eauto | reflexivity].
    + split; [discriminate | intros [x Hx]; discriminate Hx].
  - destruct (starts_with w (c :: s)); simpl.
    + split; [eauto | reflexivity].
    + exact IH.
Qed.

(** [suffix_from] finds the first place where the phrase stands. *)
Lemma suffix_from_Some (w s t : str) :
  suffix_from w s = Some t ->
  exists pre post, s = pre ++ w ++ post /\ t = w ++ post
    /\ forall pre' post', s = pre' ++ w ++ post' -> length pre <= length pre'.
Proof.
  revert t. induction s as [|c s IH]; intros t; simpl.
  - destruct (starts_with w []) eqn:Hw; [| discriminate].
    intros [= <-]. exists [], (drop (length w) []).
    split; [exact (starts_with_inv _ _ Hw) |].
    split; [exact (starts_with_inv _ _ Hw) |].
    intros pre' post' _. simpl. lia.
  - destruct (starts_with w (c :: s)) eqn:Hw.
    + intros [= <-]. exists [], (drop (length w) (c :: s)).
      split; [exact (starts_with_inv _ _ Hw) |].
      split; [exact (starts_with_inv _ _ Hw) |].
      intros pre' post' _. simpl. lia.
    + intros H. destruct (IH _ H) as (pre & post & Hs & Ht & Hmin).
      exists (c :: pre), post. split; [simpl; congruence |].
      split; [exact Ht |].
      intros pre' post' Heq. destruct pre' as [|c' pre'].
      * simpl in Heq. rewrite Heq, starts_with_app in Hw. discriminate Hw.
      * simpl in Heq. injection Heq as _ Heq. simpl.
        apply le_n_S. exact (Hmin _ _ Heq).
Qed.

Lemma suffix_from_None (w s : str) :
  suffix_from w s = None -> forall pre post, s <> pre ++ w ++ post.
Proof.
  induction s as [|c s IH]; simpl.
  - destruct (starts_with w []) eqn:Hw; [discriminate |].
    intros _ pre post Heq. destruct pre as [|c' pre]; [| discriminate Heq].
    simpl in Heq. rewrite Heq, starts_with_app in Hw. discriminate Hw.
  - destruct (starts_with w (c :: s)) eqn:Hw; [discriminate |].
    intros H pre post Heq. destruct pre as [|c' pre].
    + simpl in Heq. rewrite Heq, starts_with_app in Hw. discriminate Hw.
    + simpl in Heq. injection Heq as _ Heq. exact (IH H _ _ Heq).
Qed.

(** [w in s] holds exactly when [s] has [w] as a substring. *)
Lemma contains_spec (w s : str) :
  contains w s = true <-> exists pre post, s = pre ++ w ++ post.
Proof.
  rewrite contains_suffix_from. split.
  - intros [t Ht]. destruct (suffix_from_Some _ _ _ Ht) as (pre & post & Hs & _).
    eauto.
  - intros (pre & post & Hs). destruct (suffix_from w s) as [t|] eqn:Ht; [eauto |].
    exfalso. exact (suffix_from_None _ _ Ht _ _ Hs).
Qed.

(** *** The matcher on the shapes that the patterns use *)

Lemma exec_chars_eqb {R : Type} (w : str) (s : str) (g : option str)
  (k : str -> option str -> option R) :
  exec (foldr (fun c r => Cat (Chr (N.eqb c)) r) Eps w) s g k
  = if starts_with w s then k (drop (length w) s) g else None.
Proof.
  revert s. induction w as [|a w IH]; intros s; [reflexivity |].
  destruct s as [|c s]; [reflexivity |].
  cbn [foldr exec starts_with length drop].
  destruct (a =? c)%N; [apply IH | reflexivity].
Qed.

Lemma star_k_total {R : Type} (p : char -> bool) (s : str) (f : str -> R) :
  star_k p s (fun s' => Some (f s')) = Some (f (drop_while p s)).
Proof.
  induction s as [|c s IH]; [reflexivity |].
  simpl. destruct (p c); [rewrite IH |]; reflexivity.
Qed.

Lemma length_drop_while (p : char -> bool) (s : str) :
  length (drop_while p s) = length s - length (take_while p s).
Proof.
  induction s as [|c s IH]; [reflexivity |].
  simpl. destruct (p c); [exact IH | reflexivity].
Qed.

Lemma length_take_while (p : char -> bool) (s : str) :
  length (take_while p s) <= length s.
Proof.
  induction s as [|c s IH]; [reflexivity |].
  simpl. destruct (p c); simpl; lia.
Qed.

Lemma take_while_prefix (p : char -> bool) (s : str) :
  take (length (take_while p s)) s = take_while p s.
Proof.
  induction s as [|c s IH]; [reflexivity |].
  simpl. destruct (p c); [simpl; f_equal; exact IH | reflexivity].
Qed.

Lemma take_while_app (p : char -> bool) (a b : str) :
  forallb p a = true -> take_while p (a ++ b) = a ++ take_while p b.
Proof.
  induction a as [|c a IH]; [reflexivity |].
  simpl. intros H. apply andb_prop in H as [-> Ha]. f_equal. exact (IH Ha).
Qed.

Lemma take_while_all (p : char -> bool) (s : str) :
  forallb p s = true -> take_while p s = s.
Proof.
  induction s as [|c s IH]; [reflexivity |].
  simpl. intros H. apply andb_prop in H as [-> Hs]. f_equal. exact (IH Hs).
Qed.

(** The oscillation pattern at one position. *)
Lemma match_at_oscillation (s : str) :
  match_at _OSCILLATION_RE s
  = if starts_with oscillation_phrase s
    then Some {| group0 := take_while (not_char 10) s; group1 := None |}
    else None.
Proof.
  unfold match_at, _OSCILLATION_RE, lit, chars.
  cbn [exec]. rewrite exec_chars_eqb. fold oscillation_phrase.
  destruct (starts_with oscillation_phrase s) eqn:Hw; [| reflexivity].
  cbn [exec]. rewrite star_k_total. do 2 f_equal.
  apply starts_with_inv in Hw.
  remember (drop (length oscillation_phrase) s) as post eqn:Hpost.
  clear Hpost. subst s.
  rewrite take_while_app by reflexivity.
  rewrite length_drop_while, length_app.
  pose proof (length_take_while (not_char 10) post) as Hle.
  replace (length oscillation_phrase + length post
           - (length post - length (take_while (not_char 10) post)))
    with (length oscillation_phrase + length (take_while (not_char 10) post))
    by lia.
  rewrite take_app_add, take_while_prefix. reflexivity.
Qed.

Lemma search_oscillation (line : str) :
  search _OSCILLATION_RE line
  = (fun t => {| group0 := t; group1 := None |}) <$> oscillation_entry line.
Proof.
  unfold oscillation_entry.
  induction line as [|c line IH]; cbn [search suffix_from].
  - rewrite match_at_oscillation. reflexivity.
  - rewrite match_at_oscillation.
    destruct (starts_with oscillation_phrase (c :: line)); [reflexivity |].
    exact IH.
Qed.

(** *** One line of the scan *)

(** The loop body never raises: it is the nine detectors, one after the
    other. *)
Lemma analyse_line_detectors (summary : IssueSummary) (line : str) :
  analyse_line summary line = Ok (detectors line summary).
Proof.
  unfold analyse_line, detectors. rewrite !extract_last_int.
  unfold detect_notes_with_errors, detect_notes_processed.
  destruct (contains (u "Notes Processed") line);
    destruct (contains (u "Errors") line && negb (contains (u "Metric") line));
    destruct (last_int line) as [v|]; reflexivity.
Qed.

(** Each detector writes one field. *)
Lemma detect_missing_backticks_set (line : str) (s : IssueSummary) :
  detect_missing_backticks line s
  = set_missing_backticks
      (missing_backticks s
       ∪ (if search _MISSING_BACKTICKS_RE line is Some m then {[ group_1 m ]} else ∅))
      s.
Proof.
  unfold detect_missing_backticks.
  destruct (search _ line); [reflexivity |].
  rewrite (right_id_L ∅ (∪)). destruct s; reflexivity.
Qed.

Lemma detect_oscillation_set (line : str) (s : IssueSummary) :
  detect_oscillation line s
  = set_oscillation_messages
      (oscillation_messages s ++ option_list (oscillation_entry line)) s.
Proof.
  unfold detect_oscillation. rewrite search_oscillation.
  destruct (oscillation_entry line); [reflexivity |].
  simpl. rewrite app_nil_r. destruct s; reflexivity.
Qed.

Lemma detect_control_code_set (line : str) (s : IssueSummary) :
  detect_control_code line s
  = set_unacceptable_control_codes
      (unacceptable_control_codes s
       ∪ (if search _UNACCEPTABLE_CHAR_RE line is Some m
          then {[ lower (group_1 m) ]} else ∅))
      s.
Proof.
  unfold detect_control_code.
  destruct (search _ line); [reflexivity |].
  rewrite (right_id_L ∅ (∪)). destruct s; reflexivity.
Qed.

Lemma detect_recursion_limit_set (line : str) (s : IssueSummary) :
  detect_recursion_limit line s
  = set_recursion_limit_hits
      (recursion_limit_hits s
       + if search _RECURSION_LIMIT_RE line is Some _ then 1 else 0)%Z s.
Proof.
  unfold detect_recursion_limit.
  destruct (search _ line); [reflexivity |].
  rewrite Z.add_0_r. destruct s; reflexivity.
Qed.

Lemma detect_qa_none_set (line : str) (s : IssueSummary) :
  detect_qa_none line s
  = set_qa_verification_none_errors
      (qa_verification_none_errors s
       + if contains (u "argument of type 'NoneType' is not iterable") line
         then 1 else 0)%Z s.
Proof.
  unfold detect_qa_none.
  destruct (contains _ line); [reflexivity |].
  rewrite Z.add_0_r. destruct s; reflexivity.
Qed.

Lemma detect_draft_status_set (line : str) (s : IssueSummary) :
  detect_draft_status line s
  = set_draft_status_notes
      (draft_status_notes s
       + if search _STATUS_DRAFT_RE line is Some _ then 1 else 0)%Z s.
Proof.
  unfold detect_draft_status.
  destruct (search _ line); [reflexivity |].
  rewrite Z.add_0_r. destruct s; reflexivity.
Qed.

Lemma detect_future_date_set (line : str) (s : IssueSummary) :
  detect_future_date line s
  = set_future_dated_metadata_notes
      (future_dated_metadata_notes s
       + if search _FUTURE_DATE_RE line is Some _ then 1 else 0)%Z s.
Proof.
  unfold detect_future_date.
  destruct (search _ line); [reflexivity |].
  rewrite Z.add_0_r. destruct s; reflexivity.
Qed.

Lemma detect_notes_processed_set (line : str) (s : IssueSummary) :
  detect_notes_processed line s
  = set_notes_processed (overwrite (notes_processed s) (processed_metric line)) s.
Proof.
  unfold detect_notes_processed, processed_metric.
  destruct (contains _ line); [destruct (last_int line); [reflexivity |] |];
    destruct s; reflexivity.
Qed.

Lemma detect_notes_with_errors_set (line : str) (s : IssueSummary) :
  detect_notes_with_errors line s
  = set_notes_with_errors (overwrite (notes_with_errors s) (errors_metric line)) s.
Proof.
  unfold detect_notes_with_errors, errors_metric.
  destruct (_ && _); [destruct (last_int line); [reflexivity |] |];
    destruct s; reflexivity.
Qed.

(** The summary after one line, field by field. *)
Lemma detectors_fields (line : str) (s : IssueSummary) :
  detectors line s
  = {| oscillation_messages :=
         oscillation_messages s ++ option_list (oscillation_entry line);
       missing_backticks :=
         missing_backticks s
         ∪ (if search _MISSING_BACKTICKS_RE line is Some m
            then {[ group_1 m ]} else ∅);
       unacceptable_control_codes :=
         unacceptable_control_codes s
         ∪ (if search _UNACCEPTABLE_CHAR_RE line is Some m
            then {[ lower (group_1 m) ]} else ∅);
       recursion_limit_hits :=
         (recursion_limit_hits s
          + if search _RECURSION_LIMIT_RE line is Some _ then 1 else 0)%Z;
       qa_verification_none_errors :=
         (qa_verification_none_errors s
          + if contains (u "argument of type 'NoneType' is not iterable") line
            then 1 else 0)%Z;
       draft_status_notes :=
         (draft_status_notes s
          + if search _STATUS_DRAFT_RE line is Some _ then 1 else 0)%Z;
       future_dated_metadata_notes :=
         (future_dated_metadata_notes s
          + if search _FUTURE_DATE_RE line is Some _ then 1 else 0)%Z;
       notes_processed := overwrite (notes_processed s) (processed_metric line);
       notes_with_errors := overwrite (notes_with_errors s) (errors_metric line)
    |}.
Proof.
  unfold detectors.
  rewrite detect_notes_with_errors_set, detect_notes_processed_set,
    detect_future_date_set, detect_draft_status_set, detect_qa_none_set,
    detect_recursion_limit_set, detect_control_code_set,
    detect_oscillation_set, detect_missing_backticks_set.
  reflexivity.
Qed.

(** *** The whole scan *)

Lemma analyse_line_total (summary : IssueSummary) (line : str) :
  exists summary', analyse_line summary line = Ok summary'.
Proof. rewrite analyse_line_detectors. eauto. Qed.

Lemma analyse_loop_total (lines : list str) (summary : IssueSummary) :
  exists summary', analyse_loop summary lines = Ok summary'.
Proof.
  revert summary. induction lines as [|line rest IH]; intros summary.
  - exists summary. reflexivity.
  - destruct (analyse_line_total summary line) as (s1 & H1).
    destruct (IH s1) as (s2 & H2). exists s2.
    cbn [analyse_loop]. rewrite H1. exact H2.
Qed.

Lemma analyse_loop_cons (summary s1 : IssueSummary) (line : str)
  (rest : list str) :
  analyse_line summary line = Ok s1 ->
  analyse_loop summary (line :: rest) = analyse_loop s1 rest.
Proof. intros H. cbn [analyse_loop]. rewrite H. reflexivity. Qed.

Lemma analyse_loop_app (l1 l2 : list str) (summary s1 : IssueSummary) :
  analyse_loop summary l1 = Ok s1 ->
  analyse_loop summary (l1 ++ l2) = analyse_loop s1 l2.
Proof.
  revert summary. induction l1 as [|line rest IH]; intros summary H.
  - injection H as ->. reflexivity.
  - destruct (analyse_line_total summary line) as (s0 & H0).
    rewrite (analyse_loop_cons _ _ _ _ H0) in H.
    rewrite <- app_comm_cons, (analyse_loop_cons _ _ _ _ H0).
    exact (IH _ H).
Qed.

(** A field that each line changes by [step] is, after the scan, the fold
    of [step] over the lines. *)
Lemma analyse_loop_field {F : Type} (field : IssueSummary -> F)
  (step : F -> str -> F) :
  (forall summary s' line, analyse_line summary line = Ok s' ->
     field s' = step (field summary) line) ->
  forall lines summary s', analyse_loop summary lines = Ok s' ->
    field s' = foldl step (field summary) lines.
Proof.
  intros Hstep. induction lines as [|line rest IH]; intros summary s' H.
  - injection H as ->. reflexivity.
  - destruct (analyse_line_total summary line) as (s1 & H1).
    rewrite (analyse_loop_cons _ _ _ _ H1) in H.
    cbn [foldl]. rewrite <- (Hstep _ _ _ H1). exact (IH _ _ H).
Qed.

Lemma analyse_line_inv (summary s' : IssueSummary) (line : str) :
  analyse_line summary line = Ok s' -> s' = detectors line summary.
Proof. rewrite analyse_line_detectors. intros [= <-]. reflexivity. Qed.

Lemma analyse_line_oscillation (summary s' : IssueSummary) (line : str) :
  analyse_line summary line = Ok s' ->
  oscillation_messages s'
  = oscillation_messages summary ++ option_list (oscillation_entry line).
Proof.
  intros H. rewrite (analyse_line_inv _ _ _ H), detectors_fields. reflexivity.
Qed.

Lemma analyse_line_processed (summary s' : IssueSummary) (line : str) :
  analyse_line summary line = Ok s' ->
  notes_processed s' = overwrite (notes_processed summary) (processed_metric line).
Proof.
  intros H. rewrite (analyse_line_inv _ _ _ H), detectors_fields. reflexivity.
Qed.

Lemma analyse_line_errors (summary s' : IssueSummary) (line : str) :
  analyse_line summary line = Ok s' ->
  notes_with_errors s' = overwrite (notes_with_errors summary) (errors_metric line).
Proof.
  intros H. rewrite (analyse_line_inv _ _ _ H), detectors_fields. reflexivity.
Qed.

Lemma foldl_option_list {A : Type} (f : str -> option A) (lines : list str)
  (acc : list A) :
  foldl (fun acc line => acc ++ option_list (f line)) acc lines
  = acc ++ omap f lines.
Proof.
  revert acc. induction lines as [|line rest IH]; intros acc; cbn [foldl].
  - rewrite app_nil_r. reflexivity.
  - rewrite IH. cbn [omap list_omap].
    destruct (f line); simpl; rewrite <- ?app_assoc, ?app_nil_r; reflexivity.
Qed.

Lemma foldl_overwrite (f : str -> option Z) (lines : list str) (old : option Z) :
  foldl (fun acc line => overwrite acc (f line)) old lines
  = overwrite old (last (omap f lines)).
Proof.
  revert old. induction lines as [|line rest IH]; intros old; cbn [foldl].
  - reflexivity.
  - rewrite IH. cbn [omap list_omap].
    destruct (f line) as [v|]; [| reflexivity].
    change (list_omap _ _ f rest) with (omap f rest).
    rewrite last_cons. destruct (last (omap f rest)); reflexivity.
Qed.

(** *** Tokens *)

Lemma split_aux_tokens (s cur : str) :
  Forall (fun c => Py_UNICODE_ISSPACE c = false) cur ->
  Forall (fun token => token <> []
                       /\ Forall (fun c => Py_UNICODE_ISSPACE c = false) token)
    (split_aux cur s).
Proof.
  revert cur. induction s as [|c s IH]; intros cur Hcur; cbn [split_aux].
  - destruct cur as [|a cur]; [constructor |].
    constructor; [split; [discriminate | exact Hcur] | constructor].
  - destruct (Py_UNICODE_ISSPACE c) eqn:Hc.
    + destruct cur as [|a cur]; [apply (IH []); constructor |].
      constructor; [split; [discriminate | exact Hcur] |].
      apply (IH []). constructor.
    + apply IH, Forall_app. split; [exact Hcur |].
      constructor; [exact Hc | constructor].
Qed.

(** The tokens of [s.split()] are not empty and hold no white space. *)
Lemma split_tokens (s token : str) :
  token ∈ split s ->
  token <> [] /\ Forall (fun c => Py_UNICODE_ISSPACE c = false) token.
Proof.
  intros Hin. pose proof (split_aux_tokens s [] (Forall_nil_2 _)) as Hall.
  rewrite Forall_forall in Hall. exact (Hall _ Hin).
Qed.

Lemma last_omap_cons {A B : Type} (f : A -> option B) (a : A) (l : list A) :
  last (omap f (a :: l))
  = match last (omap f l) with
    | Some w => Some w
    | None => f a
    end.
Proof.
  cbn [omap list_omap]. change (list_omap A B f l) with (omap f l).
  destruct (f a); [rewrite last_cons |]; destruct (last (omap f l)); reflexivity.
Qed.

Lemma last_omap_None {A B : Type} (f : A -> option B) (l : list A) :
  last (omap f l) = None <-> Forall (fun y => f y = None) l.
Proof.
  induction l as [|a l IH]; [split; [constructor | reflexivity] |].
  rewrite last_omap_cons, Forall_cons.
  destruct (last (omap f l)).
  - split; [discriminate |]. intros [_ H]. apply IH in H. discriminate H.
  - split; [intros H; split; [exact H | apply IH; reflexivity] |].
    intros [H _]. exact H.
Qed.

Lemma last_omap_Some {A B : Type} (f : A -> option B) (l : list A) (v : B) :
  last (omap f l) = Some v <->
  exists before x after, l = before ++ x :: after /\ f x = Some v
    /\ Forall (fun y => f y = None) after.
Proof.
  revert v. induction l as [|a l IH]; intros v.
  - split; [discriminate |].
    intros (before & x & after & H & _). destruct before; discriminate H.
  - rewrite last_omap_cons. split.
    + destruct (last (omap f l)) as [w|] eqn:Hl.
      * intros [= ->]. destruct (proj1 (IH v) eq_refl)
          as (before & x & after & -> & Hx & Ha).
        exists (a :: before), x, after. eauto.
      * intros Ha. exists [], a, l. apply last_omap_None in Hl. eauto.
    + intros (before & x & after & Heq & Hx & Ha).
      destruct before as [|b before]; simpl in Heq; injection Heq as -> ->.
      * apply last_omap_None in Ha. rewrite Ha. exact Hx.
      * rewrite (proj2 (IH v)) by eauto 6. reflexivity.
Qed.

(** *** The invariant *)

Lemma summary_le_refl (s : IssueSummary) : summary_le s s.
Proof. split; try reflexivity; auto. Qed.

Lemma summary_le_trans (a b c : IssueSummary) :
  summary_le a b -> summary_le b c -> summary_le a c.
Proof.
  intros [] []. split; try (etransitivity; eassumption); auto.
Qed.

Lemma overwrite_None (metric : option Z) : overwrite None metric = metric.
Proof. destruct metric; reflexivity. Qed.

Lemma overwrite_is_Some (old metric : option Z) :
  is_Some old -> is_Some (overwrite old metric).
Proof. destruct metric; simpl; eauto. Qed.

Lemma detectors_le (line : str) (s : IssueSummary) :
  summary_le s (detectors line s).
Proof.
  rewrite detectors_fields. split; cbn.
  - destruct (search _ line); lia.
  - destruct (contains _ line); lia.
  - destruct (search _ line); lia.
  - destruct (search _ line); lia.
  - apply union_subseteq_l.
  - apply union_subseteq_l.
  - apply prefix_app_r. reflexivity.
  - apply overwrite_is_Some.
  - apply overwrite_is_Some.
Qed.

Lemma analyse_loop_le (lines : list str) (s s' : IssueSummary) :
  analyse_loop s lines = Ok s' -> summary_le s s'.
Proof.
  revert s. induction lines as [|line rest IH]; intros s H.
  - injection H as ->. apply summary_le_refl.
  - cbn [analyse_loop] in H. rewrite analyse_line_detectors in H.
    apply summary_le_trans with (detectors line s);
      [apply detectors_le | exact (IH _ H)].
Qed.

(** *** The claims about the analyzer *)

(** C1, amended. The oscillation detector of [analyse_lines] appends an
    entry for a line exactly when the line contains [Oscillation detected]
    (anywhere, not only at its start); the entry is the text of the line from
    the first occurrence of the phrase up to the next line feed or the end of
    the line, so it is the full line when the line starts with the phrase and
    holds no line feed; after a scan the entries stand in encounter order,
    duplicates kept. *)
Theorem oscillation_detector_first_occurrence :
  (forall summary line, exists summary',
      analyse_line summary line = Ok summary'
      /\ oscillation_messages summary'
         = oscillation_messages summary ++ option_list (oscillation_entry line))
  /\ (forall line,
        is_Some (oscillation_entry line)
        <-> exists pre post, line = pre ++ oscillation_phrase ++ post)
  /\ (forall line entry,
        oscillation_entry line = Some entry ->
        exists pre post,
          line = pre ++ oscillation_phrase ++ post
          /\ (forall pre' post', line = pre' ++ oscillation_phrase ++ post' ->
                length pre <= length pre')
          /\ entry = oscillation_phrase ++ take_while (not_char 10) post)
  /\ (forall line,
        starts_with oscillation_phrase line = true ->
        forallb (not_char 10) line = true ->
        oscillation_entry line = Some line)
  /\ (forall lines, exists summary,
        analyse_lines lines = Ok summary
        /\ oscillation_messages summary = omap oscillation_entry lines).
Proof.
  split; [| split; [| split; [| split]]].
  - intros summary line. exists (detectors line summary).
    split; [apply analyse_line_detectors |].
    rewrite detectors_fields. reflexivity.
  - intros line. unfold oscillation_entry.
    rewrite fmap_is_Some, <- contains_suffix_from. apply contains_spec.
  - intros line entry. unfold oscillation_entry.
    destruct (suffix_from oscillation_phrase line) as [t|] eqn:Ht; [| discriminate].
    intros [= <-].
    destruct (suffix_from_Some _ _ _ Ht) as (pre & post & Hl & -> & Hmin).
    exists pre, post. split; [exact Hl |]. split; [exact Hmin |].
    apply take_while_app. reflexivity.
  - intros line Hs Hn. unfold oscillation_entry.
    destruct line as [|c line]; [discriminate Hs |].
    cbn [suffix_from]. rewrite Hs. cbn [fmap option_fmap option_map].
    rewrite take_while_all by exact Hn. reflexivity.
  - intros lines. destruct (analyse_loop_total lines empty_summary) as (s & Hs).
    exists s. split; [exact Hs |].
    rewrite (analyse_loop_field oscillation_messages
               (fun acc line => acc ++ option_list (oscillation_entry line))
               analyse_line_oscillation _ _ _ Hs).
    rewrite foldl_option_list. reflexivity.
Qed.

Lemma metric_tokens (line : str) (v : Z) :
  last_int line = Some v <->
  exists before token after,
    split line = before ++ token :: after /\ token_value token = Some v
    /\ Forall (fun t => token_value t = None) after.
Proof. apply last_omap_Some. Qed.

(** C2. A line that contains [Notes Processed] sets [notes_processed] to
    the integer of its last white-space delimited token that is an integer
    once the border character is stripped (and leaves the field when no
    token is one); after a scan the field holds the value of the last such
    line, so [120] then [80] gives [80]. *)
Theorem notes_processed_last_integer :
  (forall summary line,
      contains (u "Notes Processed") line = true ->
      exists summary',
        analyse_line summary line = Ok summary'
        /\ notes_processed summary' = overwrite (notes_processed summary) (last_int line))
  /\ (forall line v,
        last_int line = Some v <->
        exists before token after,
          split line = before ++ token :: after /\ token_value token = Some v
          /\ Forall (fun t => token_value t = None) after)
  /\ (forall line token,
        token ∈ split line ->
        token <> [] /\ Forall (fun c => Py_UNICODE_ISSPACE c = false) token)
  /\ (forall lines, exists summary,
        analyse_lines lines = Ok summary
        /\ notes_processed summary = last (omap processed_metric lines))
  /\ (exists summary,
        analyse_lines [line_processed_120; line_processed_80] = Ok summary
        /\ notes_processed summary = Some 80%Z).
Proof.
  assert (Hscan : forall lines, exists summary,
             analyse_lines lines = Ok summary
             /\ notes_processed summary = last (omap processed_metric lines)).
  { intros lines. destruct (analyse_loop_total lines empty_summary) as (s & Hs).
    exists s. split; [exact Hs |].
    rewrite (analyse_loop_field notes_processed
               (fun acc line => overwrite acc (processed_metric line))
               analyse_line_processed _ _ _ Hs).
    rewrite foldl_overwrite. apply overwrite_None. }
  split; [| split; [| split; [| split]]].
  - intros summary line Hc. exists (detectors line summary).
    split; [apply analyse_line_detectors |].
    rewrite detectors_fields. cbn. unfold processed_metric. rewrite Hc.
    reflexivity.
  - apply metric_tokens.
  - apply split_tokens.
  - exact Hscan.
  - destruct (Hscan [line_processed_120; line_processed_80]) as (s & Hs & Hp).
    exists s. split; [exact Hs |]. rewrite Hp. reflexivity.
Qed.

(** C7. One line of the scan never lowers a counter, never removes an
    element of a set or of the oscillation messages, and never clears
    [notes_processed] or [notes_with_errors] once they are present; the same
    holds between any two moments of a scan. *)
Theorem scan_invariant :
  (forall summary line, exists summary',
      analyse_line summary line = Ok summary' /\ summary_le summary summary')
  /\ (forall lines1 lines2, exists s1 s2,
        analyse_lines lines1 = Ok s1
        /\ analyse_lines (lines1 ++ lines2) = Ok s2
        /\ summary_le s1 s2).
Proof.
  split.
  - intros summary line. exists (detectors line summary).
    split; [apply analyse_line_detectors | apply detectors_le].
  - intros lines1 lines2.
    destruct (analyse_loop_total lines1 empty_summary) as (s1 & H1).
    destruct (analyse_loop_total lines2 s1) as (s2 & H2).
    exists s1, s2. unfold analyse_lines.
    rewrite (analyse_loop_app _ lines2 _ _ H1).
    split; [exact H1 |]. split; [exact H2 |].
    exact (analyse_loop_le _ _ _ H2).
Qed.

Lemma no_int_metric (line : str) :
  Forall (fun token => token_value token = None) (split line) ->
  processed_metric line = None /\ errors_metric line = None.
Proof.
  intros H. apply last_omap_None in H. fold (last_int line) in H.
  unfold processed_metric, errors_metric. rewrite H.
  split; [destruct (contains _ line) | destruct (_ && _)]; reflexivity.
Qed.

(** C8. A line without any token that is an integer, whatever metric
    substring it contains, does not make [analyse_lines] fail and leaves
    [notes_processed] and [notes_with_errors] as they were; a scan of such
    lines alone leaves both unset. *)
Theorem malformed_metric_line_ignored :
  (forall summary line,
      Forall (fun token => token_value token = None) (split line) ->
      exists summary',
        analyse_line summary line = Ok summary'
        /\ notes_processed summary' = notes_processed summary
        /\ notes_with_errors summary' = notes_with_errors summary)
  /\ (forall lines,
        Forall (fun line =>
                  Forall (fun token => token_value token = None) (split line))
          lines ->
        exists summary,
          analyse_lines lines = Ok summary
          /\ notes_processed summary = None /\ notes_with_errors summary = None).
Proof.
  split.
  - intros summary line H. exists (detectors line summary).
    split; [apply analyse_line_detectors |].
    destruct (no_int_metric line H) as [Hp He].
    rewrite detectors_fields. cbn. rewrite Hp, He. split; reflexivity.
  - intros lines H.
    destruct (analyse_loop_total lines empty_summary) as (s & Hs).
    exists s. split; [exact Hs |].
    rewrite (analyse_loop_field notes_processed
               (fun acc line => overwrite acc (processed_metric line))
               analyse_line_processed _ _ _ Hs).
    rewrite (analyse_loop_field notes_with_errors
               (fun acc line => overwrite acc (errors_metric line))
               analyse_line_errors _ _ _ Hs).
    rewrite !foldl_overwrite.
    assert (Hp : last (omap processed_metric lines) = None).
    { apply last_omap_None. eapply Forall_impl; [exact H |].
      intros line Hl. exact (proj1 (no_int_metric line Hl)). }
    assert (He : last (omap errors_metric lines) = None).
    { apply last_omap_None. eapply Forall_impl; [exact H |].
      intros line Hl. exact (proj2 (no_int_metric line Hl)). }
    rewrite Hp, He. split; reflexivity.
Qed.

(** C10. A line changes [notes_with_errors] exactly when it contains
    [Errors], does not contain [Metric], and has a token that is an integer;
    the new value is the integer of the last such token, and after a scan the
    field holds the value of the last line that changed it. *)
Theorem notes_with_errors_metric :
  (forall summary line, exists summary',
      analyse_line summary line = Ok summary'
      /\ notes_with_errors summary'
         = overwrite (notes_with_errors summary) (errors_metric line))
  /\ (forall line v,
        errors_metric line = Some v <->
        contains (u "Errors") line = true
        /\ contains (u "Metric") line = false
        /\ exists before token after,
             split line = before ++ token :: after /\ token_value token = Some v
             /\ Forall (fun t => token_value t = None) after)
  /\ (forall lines, exists summary,
        analyse_lines lines = Ok summary
        /\ notes_with_errors summary = last (omap errors_metric lines)).
Proof.
  split; [| split].
  - intros summary line. exists (detectors line summary).
    split; [apply analyse_line_detectors |].
    rewrite detectors_fields. reflexivity.
  - intros line v. unfold errors_metric. rewrite <- metric_tokens.
    destruct (contains (u "Errors") line), (contains (u "Metric") line); simpl;
      intuition congruence.
  - intros lines. destruct (analyse_loop_total lines empty_summary) as (s & Hs).
    exists s. split; [exact Hs |].
    rewrite (analyse_loop_field notes_with_errors
               (fun acc line => overwrite acc (errors_metric line))
               analyse_line_errors _ _ _ Hs).
    rewrite foldl_overwrite. apply overwrite_None.
Qed.

(** *** The recommendations *)

(** Appending under a condition, seven times, is concatenating seven
    optional items. *)
Lemma advice_chain (c1 c3 c4 c5 c6 c7 : bool) (msgs : list str)
  (x1 x2 x3 x4 x5 x6 x7 : str) :
  (let advice : list str := [] in
   let advice := if c1 then advice ++ [x1] else advice in
   let advice := if msgs is [] then advice else advice ++ [x2] in
   let advice := if c3 then advice ++ [x3] else advice in
   let advice := if c4 then advice ++ [x4] else advice in
   let advice := if c5 then advice ++ [x5] else advice in
   let advice := if c6 then advice ++ [x6] else advice in
   let advice := if c7 then advice ++ [x7] else advice in
   advice)
  = opt_item c1 x1 ++ opt_item (if msgs is [] then false else true) x2
    ++ opt_item c3 x3 ++ opt_item c4 x4 ++ opt_item c5 x5 ++ opt_item c6 x6
    ++ opt_item c7 x7.
Proof.
  destruct c1, msgs, c3, c4, c5, c6, c7; reflexivity.
Qed.

(** [recommendations]: the seven basic items, then the systemic one. *)
Lemma recommendations_unfold (s : IssueSummary) :
  recommendations s
  = match notes_processed s, notes_with_errors s with
    | Some processed, Some errors =>
        if (0 <? errors)%Z
        then rate ← int_true_divide errors processed;
             e ← py_str errors;
             p ← py_str processed;
             Ok (basic_advice s
                 ++ [u "Investigate systemic issues: " ++ e ++ u " of " ++ p
                     ++ u " " ++ u "notes (" ++ format_percent1 rate
                     ++ u ") still end in errors despite modifications."])
        else Ok (basic_advice s)
    | _, _ => Ok (basic_advice s)
    end.
Proof.
  unfold recommendations, basic_advice, sorted_names. cbv zeta.
  rewrite advice_chain. reflexivity.
Qed.

(** *** The report, section by section *)

Lemma bind_ext {A B : Type} (m : result A) (f g : A -> result B) :
  (forall a, f a = g a) -> m ≫= f = m ≫= g.
Proof. intros H. destruct m; [apply H | reflexivity]. Qed.

Lemma bind_assoc {A B C : Type} (m : result A) (f : A -> result B)
  (g : B -> result C) :
  (m ≫= f) ≫= g = m ≫= (fun a => f a ≫= g).
Proof. destruct m; reflexivity. Qed.

Lemma or_zero_default (x : option Z) : or_zero x = default 0%Z x.
Proof.
  destruct x as [v|]; [| reflexivity]. unfold or_zero, truthy. simpl.
  destruct (Z.eqb_spec v 0); [symmetry; assumption | reflexivity].
Qed.

Lemma foldl_snoc_map {A : Type} (f : A -> str) (items : list A)
  (lines : list str) :
  foldl (fun lines item => lines ++ [f item]) lines items
  = lines ++ List.map f items.
Proof.
  revert lines. induction items as [|x items IH]; intros lines; cbn [foldl List.map].
  - rewrite app_nil_r. reflexivity.
  - rewrite IH, <- app_assoc. reflexivity.
Qed.

Lemma truthy_decide (n : Z) : truthy n = negb (bool_decide (n = 0%Z)).
Proof.
  unfold truthy. destruct (Z.eqb_spec n 0) as [H|H].
  - rewrite bool_decide_eq_true_2 by exact H. reflexivity.
  - rewrite bool_decide_eq_false_2 by exact H. reflexivity.
Qed.

Lemma step_processed {B : Type} (s : IssueSummary) (lines : list str)
  (K : list str -> result B) :
  (if notes_processed s is Some processed
   then let errors := or_zero (notes_with_errors s) in
        p ← py_str processed;
        e ← py_str errors;
        Ok (lines ++ [u "Processed notes: " ++ p ++ u " (errors: " ++ e ++ u ")"])
   else Ok lines) ≫= K
  = processed_section s ≫= (fun sec => K (lines ++ sec)).
Proof.
  unfold processed_section. cbv zeta. rewrite or_zero_default.
  destruct (notes_processed s) as [processed|].
  - destruct (py_str processed) as [p|]; [| reflexivity].
    destruct (py_str _) as [e|]; reflexivity.
  - cbn. rewrite app_nil_r. reflexivity.
Qed.

Lemma step_oscillation (s : IssueSummary) (lines : list str) :
  (if oscillation_messages s is [] then lines
   else let lines := lines ++ [[]] in
        let lines := lines ++ [u "Oscillation detected in validators:"] in
        foldl (fun lines msg => lines ++ [u "  - " ++ msg]) lines
          (oscillation_messages s))
  = lines ++ oscillation_section s.
Proof.
  unfold oscillation_section.
  destruct (oscillation_messages s) as [|m ms]; [rewrite app_nil_r; reflexivity |].
  cbv zeta. rewrite foldl_snoc_map, <- !app_assoc. reflexivity.
Qed.

Lemma step_backticks (s : IssueSummary) (lines : list str) :
  (if nonempty (missing_backticks s)
   then let lines := lines ++ [[]] in
        let missing := join (u ", ") (sorted (elements (missing_backticks s))) in
        lines ++ [u "Missing backticks around Kotlin types: " ++ missing]
   else lines)
  = lines ++ backticks_section s.
Proof.
  unfold backticks_section, nonempty, sorted_names.
  destruct (decide (missing_backticks s = ∅)) as [H|H].
  - rewrite bool_decide_eq_true_2 by exact H. rewrite app_nil_r. reflexivity.
  - rewrite bool_decide_eq_false_2 by exact H. cbv zeta.
    rewrite <- app_assoc. reflexivity.
Qed.

Lemma step_control_codes (s : IssueSummary) (lines : list str) :
  (if nonempty (unacceptable_control_codes s)
   then let codes :=
          join (u ", ") (sorted (elements (unacceptable_control_codes s))) in
        lines ++ [u "Control character crashes encountered: " ++ codes]
   else lines)
  = lines ++ control_codes_section s.
Proof.
  unfold control_codes_section, nonempty, sorted_names.
  destruct (decide (unacceptable_control_codes s = ∅)) as [H|H].
  - rewrite bool_decide_eq_true_2 by exact H. rewrite app_nil_r. reflexivity.
  - rewrite bool_decide_eq_false_2 by exact H. reflexivity.
Qed.

Lemma step_count {B : Type} (label unit : str) (n : Z) (lines : list str)
  (K : list str -> result B) :
  (if truthy n
   then d ← py_str n; Ok (lines ++ [label ++ d ++ unit])
   else Ok lines) ≫= K
  = count_section label n unit ≫= (fun sec => K (lines ++ sec)).
Proof.
  unfold count_section. rewrite truthy_decide.
  destruct (decide (n = 0%Z)) as [H|H].
  - rewrite bool_decide_eq_true_2 by exact H. cbn. rewrite app_nil_r. reflexivity.
  - rewrite bool_decide_eq_false_2 by exact H. cbn.
    destruct (py_str n); reflexivity.
Qed.

Lemma step_recommendations (s : IssueSummary) (lines : list str) :
  (advice ← recommendations s;
   let lines :=
     if advice is [] then lines
     else let lines := lines ++ [[]] in
          let lines := lines ++ [u "Recommended follow-up actions:"] in
          foldl (fun lines item => lines ++ [u "  * " ++ item]) lines advice in
   Ok (join newline lines))
  = recommendations_section s ≫= (fun sec => Ok (join newline (lines ++ sec))).
Proof.
  unfold recommendations_section. rewrite bind_assoc. apply bind_ext.
  intros advice. cbn. destruct advice as [|a advice].
  - rewrite app_nil_r. reflexivity.
  - rewrite foldl_snoc_map, <- !app_assoc. reflexivity.
Qed.

Ltac zeta1 :=
  match goal with
  | |- (let x := ?a in @?f x) = ?r => change (f a = r); cbv beta
  end.

(** [render_report] fills the template. *)
Lemma render_report_template (s : IssueSummary) :
  render_report s = report_template s.
Proof.
  cbv delta [render_report report_template]. cbv beta.
  do 3 zeta1. rewrite step_processed. apply bind_ext. intros processed.
  rewrite step_oscillation. zeta1.
  rewrite step_backticks. zeta1.
  rewrite step_control_codes. zeta1.
  rewrite step_count. apply bind_ext. intros recursion.
  rewrite step_count. apply bind_ext. intros qa.
  rewrite step_count. apply bind_ext. intros future.
  rewrite step_count. apply bind_ext. intros draft.
  rewrite step_recommendations. apply bind_ext. intros advice.
  cbn [mbind result_bind]. do 2 f_equal.
  unfold banner. rewrite <- !app_assoc. reflexivity.
Qed.

(** *** The order of strings *)

Lemma str_leb_refl (a : str) : str_leb a a = true.
Proof.
  induction a as [|x a IH]; [reflexivity |].
  simpl. rewrite N.eqb_refl, IH. apply orb_true_r.
Qed.

Lemma str_leb_total (a b : str) : str_leb a b = true \/ str_leb b a = true.
Proof.
  revert b. induction a as [|x a IH]; intros [|y b]; simpl; auto.
  destruct (N.ltb_spec x y) as [Hxy|Hxy]; [auto |].
  destruct (N.ltb_spec y x) as [Hyx|Hyx]; [auto |].
  assert (x = y) as -> by lia. rewrite N.eqb_refl. simpl. apply IH.
Qed.

Lemma str_leb_antisym (a b : str) :
  str_leb a b = true -> str_leb b a = true -> a = b.
Proof.
  revert b. induction a as [|x a IH]; intros [|y b]; simpl; try discriminate.
  - reflexivity.
  - intros Hab Hba.
    destruct (N.ltb_spec x y) as [Hxy|Hxy];
      destruct (N.ltb_spec y x) as [Hyx|Hyx]; simpl in *.
    + lia.
    + destruct (N.eqb_spec y x); [lia | discriminate Hba].
    + destruct (N.eqb_spec x y); [lia | discriminate Hab].
    + destruct (N.eqb_spec x y) as [->|]; [| discriminate Hab].
      rewrite N.eqb_refl in Hba. f_equal. apply IH; assumption.
Qed.

Lemma str_leb_trans (a b c : str) :
  str_leb a b = true -> str_leb b c = true -> str_leb a c = true.
Proof.
  revert b c. induction a as [|x a IH]; intros [|y b] [|z c]; simpl;
    try discriminate; try reflexivity.
  intros Hab Hbc.
  destruct (N.ltb_spec x y) as [Hxy|Hxy];
    destruct (N.ltb_spec y z) as [Hyz|Hyz]; simpl in *.
  - destruct (N.ltb_spec x z); [reflexivity | lia].
  - destruct (N.eqb_spec y z) as [->|]; [| discriminate Hbc].
    destruct (N.ltb_spec x z); [reflexivity | lia].
  - destruct (N.eqb_spec x y) as [->|]; [| discriminate Hab].
    destruct (N.ltb_spec y z); [reflexivity | lia].
  - destruct (N.eqb_spec x y) as [->|]; [| discriminate Hab].
    destruct (N.eqb_spec y z) as [->|]; [| discriminate Hbc].
    simpl. rewrite (IH _ _ Hab Hbc). apply orb_true_r.
Qed.

Global Instance str_le_total : Total str_le.
Proof. intros a b. apply str_leb_total. Qed.

Global Instance str_le_trans : Transitive str_le.
Proof. intros a b c. apply str_leb_trans. Qed.

Global Instance str_le_antisym : AntiSymm (=) str_le.
Proof. intros a b. apply str_leb_antisym. Qed.

Lemma sorted_sorted (xs : list str) : StronglySorted str_le (sorted xs).
Proof. apply StronglySorted_merge_sort; apply _. Qed.

Lemma sorted_perm (xs : list str) : sorted xs ≡ₚ xs.
Proof. apply merge_sort_Permutation. Qed.

(** The sorted list does not depend on the order of its input. *)
Lemma sorted_unique (xs ys : list str) : xs ≡ₚ ys -> sorted xs = sorted ys.
Proof.
  intros H. apply (StronglySorted_unique str_le); try apply sorted_sorted.
  rewrite !sorted_perm. exact H.
Qed.

(** *** The recommendations and the report *)





(** The division by [notes_processed = 0] raises. *)
Lemma recommendations_zero_division (s : IssueSummary) (errors : Z) :
  notes_processed s = Some 0%Z -> notes_with_errors s = Some errors ->
  (0 < errors)%Z ->
  recommendations s = Raise ZeroDivisionError.
Proof.
  intros Hp He Hpos. rewrite recommendations_unfold, Hp, He.
  destruct (Z.ltb_spec 0 errors); [reflexivity | lia].
Qed.

(** [render_report] returns only if [recommendations] does. *)
Lemma render_report_needs_recommendations (s : IssueSummary) (e : exn) :
  recommendations s = Raise e -> exists e', render_report s = Raise e'.
Proof.
  intros H. rewrite render_report_template. unfold report_template.
  destruct (processed_section s); [| eauto]. cbn [mbind result_bind].
  destruct (count_section _ (recursion_limit_hits s) _); [| eauto].
  cbn [mbind result_bind].
  destruct (count_section _ (qa_verification_none_errors s) _); [| eauto].
  cbn [mbind result_bind].
  destruct (count_section _ (future_dated_metadata_notes s) _); [| eauto].
  cbn [mbind result_bind].
  destruct (count_section _ (draft_status_notes s) _); [| eauto].
  cbn [mbind result_bind].
  unfold recommendations_section. rewrite H. eauto.
Qed.

(** C3. With [notes_processed = 0] and [notes_with_errors = 1], as the two
    lines [Notes Processed | 0] and [Errors | 1] give them, the trigger of
    the systemic-issues recommendation holds, and [recommendations] raises
    [ZeroDivisionError] where it should emit the recommendation;
    [render_report] raises with it. With 25 errors of 100 notes the
    recommendation is emitted and shows [25.0%]. *)
Theorem systemic_recommendation_zero_processed :
  systemic_trigger summary_1_of_0
  /\ recommendations summary_1_of_0 = Raise ZeroDivisionError
  /\ render_report summary_1_of_0 = Raise ZeroDivisionError
  /\ (exists s,
        analyse_lines [line_processed_0; line_errors_1] = Ok s
        /\ notes_processed s = Some 0%Z /\ notes_with_errors s = Some 1%Z
        /\ recommendations s = Raise ZeroDivisionError)
  /\ recommendations summary_25_of_100
     = Ok [u "Investigate systemic issues: 25 of 100 notes (25.0%) still end in errors despite modifications."].
Proof.
  split; [| split; [| split; [| split]]].
  - exists 0%Z, 1%Z. repeat split; reflexivity || lia.
  - reflexivity.
  - reflexivity.
  - destruct (analyse_loop_total [line_processed_0; line_errors_1] empty_summary)
      as (s & Hs).
    assert (Hp : notes_processed s = Some 0%Z).
    { rewrite (analyse_loop_field notes_processed
                 (fun acc line => overwrite acc (processed_metric line))
                 analyse_line_processed _ _ _ Hs). reflexivity. }
    assert (He : notes_with_errors s = Some 1%Z).
    { rewrite (analyse_loop_field notes_with_errors
                 (fun acc line => overwrite acc (errors_metric line))
                 analyse_line_errors _ _ _ Hs). reflexivity. }
    exists s. split; [exact Hs |]. split; [exact Hp |]. split; [exact He |].
    apply (recommendations_zero_division s 1); [exact Hp | exact He | lia].
  - vm_compute. reflexivity.
Qed.

(** C4. The division of the systemic-issues recommendation has no guard
    against zero: for every summary with [notes_processed = 0] and
    [notes_with_errors > 0], [recommendations] raises [ZeroDivisionError] and
    [render_report] raises too; so, when the trigger holds, they return only
    if [notes_processed] is not zero. *)
Theorem division_unguarded_against_zero :
  (forall s errors,
      notes_processed s = Some 0%Z -> notes_with_errors s = Some errors ->
      (0 < errors)%Z ->
      recommendations s = Raise ZeroDivisionError
      /\ exists e, render_report s = Raise e)
  /\ (forall s advice,
        systemic_trigger s -> recommendations s = Ok advice ->
        notes_processed s <> Some 0%Z)
  /\ (forall s report,
        systemic_trigger s -> render_report s = Ok report ->
        notes_processed s <> Some 0%Z).
Proof.
  split; [| split].
  - intros s errors Hp He Hpos.
    pose proof (recommendations_zero_division s errors Hp He Hpos) as H.
    split; [exact H | exact (render_report_needs_recommendations _ _ H)].
  - intros s advice (p & e & Hp & He & Hpos) Hok Hz.
    rewrite (recommendations_zero_division s e Hz He Hpos) in Hok.
    discriminate Hok.
  - intros s report (p & e & Hp & He & Hpos) Hok Hz.
    destruct (render_report_needs_recommendations s _
                (recommendations_zero_division s e Hz He Hpos)) as (e' & He').
    rewrite He' in Hok. discriminate Hok.
Qed.

(** C5. The report of the empty summary is the two lines of the banner and
    nothing else. *)
Theorem render_report_empty :
  render_report empty_summary
  = Ok (u "LLM review log analysis" ++ newline ++ u "========================").
Proof. vm_compute. reflexivity. Qed.

(** C9. For every summary [render_report] fills one template: the banner;
    the processed-notes line, present only if [notes_processed] is, with
    errors shown as 0 when [notes_with_errors] is absent; the oscillation
    block in the order of the messages; the names without backticks, sorted
    and joined by commas; the control codes likewise; the recursion-limit,
    QA, future-date and draft-status counts; the recommendations last, and
    only if there is one. The names of a set are rendered sorted whatever the
    order in which the set was filled. *)
Theorem render_report_section_order :
  (forall s, render_report s = report_template s)
  /\ (forall x : gset str,
        StronglySorted str_le (sorted (elements x))
        /\ NoDup (sorted (elements x))
        /\ forall name, name ∈ sorted (elements x) <-> name ∈ x)
  /\ (forall (x : gset str) (names : list str),
        names ≡ₚ elements x -> join (u ", ") (sorted names) = sorted_names x)
  /\ (forall s (x : gset str) (a b : str),
        render_report (set_missing_backticks (x ∪ {[ a ]} ∪ {[ b ]}) s)
        = render_report (set_missing_backticks (x ∪ {[ b ]} ∪ {[ a ]}) s))
  /\ (forall s (x : gset str) (a b : str),
        render_report (set_unacceptable_control_codes (x ∪ {[ a ]} ∪ {[ b ]}) s)
        = render_report (set_unacceptable_control_codes (x ∪ {[ b ]} ∪ {[ a ]}) s)).
Proof.
  split; [| split; [| split; [| split]]].
  - apply render_report_template.
  - intros x. split; [apply sorted_sorted |]. split.
    + rewrite sorted_perm. apply NoDup_elements.
    + intros name. rewrite sorted_perm. apply elem_of_elements.
  - intros x names H. unfold sorted_names. f_equal. apply sorted_unique, H.
  - intros s x a b. do 2 f_equal.
    rewrite <- !(assoc_L (∪)), (comm_L (∪) {[ a ]}). reflexivity.
  - intros s x a b. do 2 f_equal.
    rewrite <- !(assoc_L (∪)), (comm_L (∪) {[ a ]}). reflexivity.
Qed.

(** *** Lines of a text *)

Lemma splitlines_aux_line (line rest cur : str) :
  no_linebreak line ->
  splitlines_aux cur (line ++ rest) = splitlines_aux (cur ++ line) rest.
Proof.
  revert cur. induction line as [|c line IH]; intros cur H.
  - rewrite app_nil_r. reflexivity.
  - apply Forall_cons in H as [Hc Hline].
    cbn [app splitlines_aux]. rewrite Hc, (IH _ Hline), <- app_assoc.
    reflexivity.
Qed.

Lemma splitlines_aux_newline (rest cur : str) :
  splitlines_aux cur (newline ++ rest) = cur :: splitlines_aux [] rest.
Proof. reflexivity. Qed.

(** Splitting the lines joined by line feeds gives the lines back, but for
    an empty last line. *)
Lemma splitlines_join (lines : list str) :
  Forall no_linebreak lines ->
  splitlines (join newline lines) = lines
  \/ exists lines',
       lines = lines' ++ [[]] /\ splitlines (join newline lines) = lines'.
Proof.
  induction lines as [|line rest IH]; intros H; [left; reflexivity |].
  apply Forall_cons in H as [Hline Hrest].
  destruct rest as [|line2 rest].
  - cbn [join]. unfold splitlines.
    pose proof (splitlines_aux_line line [] [] Hline) as Hs.
    rewrite app_nil_r in Hs. rewrite Hs. cbn [app splitlines_aux].
    destruct line as [|c line]; [right; exists []; split; reflexivity |].
    left. reflexivity.
  - change (join newline (line :: line2 :: rest))
      with (line ++ newline ++ join newline (line2 :: rest)).
    unfold splitlines.
    rewrite (splitlines_aux_line _ _ _ Hline), splitlines_aux_newline.
    fold (splitlines (join newline (line2 :: rest))).
    destruct (IH Hrest) as [Heq | (lines' & Heq & Hs)].
    + left. rewrite Heq. reflexivity.
    + right. exists (line :: lines'). rewrite Hs, Heq. split; reflexivity.
Qed.

Lemma analyse_line_empty (s : IssueSummary) : analyse_line s [] = Ok s.
Proof. reflexivity. Qed.

Lemma analyse_loop_snoc_empty (lines : list str) (s : IssueSummary) :
  analyse_loop s (lines ++ [[]]) = analyse_loop s lines.
Proof.
  destruct (analyse_loop_total lines s) as (s' & Hs).
  rewrite (analyse_loop_app _ _ _ _ Hs), Hs. reflexivity.
Qed.

(** C6. Analysing a text with [analyse_log_text] gives the summary that
    [analyse_lines] gives on the lines of the text, whether the lines are
    those that [splitlines] cuts or the lines that were joined by line feeds
    to make the text. *)
Theorem splitting_invariance :
  (forall text, analyse_log_text text = analyse_lines (splitlines text))
  /\ (forall lines,
        Forall no_linebreak lines ->
        analyse_log_text (join newline lines) = analyse_lines lines).
Proof.
  split; [reflexivity |].
  intros lines H. unfold analyse_log_text, analyse_lines.
  destruct (splitlines_join lines H) as [-> | (lines' & -> & ->)];
    [reflexivity |].
  rewrite analyse_loop_snoc_empty. reflexivity.
Qed.

(** ** Further properties *)

(** *** The matcher decides the language of a pattern *)

Lemma star_k_Some {R : Type} (p : char -> bool) (s : str) (k : str -> option R) :
  is_Some (star_k p s k) <->
  exists run s', s = run ++ s' /\ forallb p run = true /\ is_Some (k s').
Proof.
  induction s as [|c s IH]; cbn [star_k].
  - split.
    + intros H. exists [], []. auto.
    + intros (run & s' & Heq & _ & Hk).
      symmetry in Heq. apply app_eq_nil in Heq as [_ ->]. exact Hk.
  - destruct (p c) eqn:Hc.
    + destruct (star_k p s k) as [x|] eqn:Hs.
      * split; [| eauto]. intros _.
        destruct (proj1 IH (mk_is_Some _ _ eq_refl)) as (run & s' & -> & Hrun & Hk).
        exists (c :: run), s'. cbn. rewrite Hc, Hrun. auto.
      * split.
        -- intros Hk. exists [], (c :: s). auto.
        -- intros (run & s' & Heq & Hrun & Hk).
           destruct run as [|c' run]; [cbn in Heq; subst s'; exact Hk |].
           cbn in Heq, Hrun. injection Heq as <- ->.
           apply andb_prop in Hrun as [_ Hrun].
           assert (Hs' : is_Some (@None R)) by (apply IH; eauto).
           destruct Hs' as [x Hx]. discriminate Hx.
    + split.
      * intros Hk. exists [], (c :: s). auto.
      * intros (run & s' & Heq & Hrun & Hk).
        destruct run as [|c' run]; [cbn in Heq; subst s'; exact Hk |].
        cbn in Heq, Hrun. injection Heq as <- ->.
        rewrite Hc in Hrun. discriminate Hrun.
Qed.

(** A continuation whose success does not depend on the captured group. *)
Lemma exec_Some {R : Type} (r : regex) :
  forall (s : str) (g : option str) (k : str -> option str -> option R),
    (forall s' g1 g2, is_Some (k s' g1) -> is_Some (k s' g2)) ->
    (is_Some (exec r s g k) <-> exists s', matches r s s' /\ is_Some (k s' g)).
Proof.
  induction r as [|p|r1 IH1 r2 IH2|r1 IH1|p|r1 IH1]; intros s g k Hk; cbn [exec].
  - split; [intros H; exists s; split; [constructor | exact H] |].
    intros (s' & Hm & H). inversion Hm; subst. exact H.
  - destruct s as [|c s].
    + split; [intros [x Hx]; discriminate Hx |].
      intros (s' & Hm & _). inversion Hm.
    + destruct (p c) eqn:Hc.
      * split; [intros H; exists s; split; [constructor; exact Hc | exact H] |].
        intros (s' & Hm & H). inversion Hm; subst. exact H.
      * split; [intros [x Hx]; discriminate Hx |].
        intros (s' & Hm & _). inversion Hm; subst. congruence.
  - assert (Hk2 : forall s1 g1 g2,
               is_Some (exec r2 s1 g1 k) -> is_Some (exec r2 s1 g2 k)).
    { intros s1 g1 g2 H. apply (IH2 _ _ _ Hk) in H as (s' & Hm & H).
      apply (IH2 _ _ _ Hk). exists s'. split; [exact Hm | exact (Hk _ _ _ H)]. }
    rewrite (IH1 s g _ Hk2). split.
    + intros (s1 & Hm1 & H). apply (IH2 _ _ _ Hk) in H as (s2 & Hm2 & H).
      exists s2. split; [econstructor; eassumption | exact H].
    + intros (s2 & Hm & H). inversion Hm; subst.
      eexists. split; [eassumption |]. apply (IH2 _ _ _ Hk). eauto.
  - destruct (exec r1 s g k) as [x|] eqn:He.
    + split; [intros _ | eauto].
      destruct (proj1 (IH1 s g k Hk)) as (s' & Hm & H); [rewrite He; eauto |].
      exists s'. split; [constructor; exact Hm | exact H].
    + split; [intros H; exists s; split; [apply matches_Opt_none | exact H] |].
      intros (s' & Hm & H). inversion Hm; subst; [| exact H].
      assert (Hs : is_Some (exec r1 s g k)) by (apply (IH1 _ _ _ Hk); eauto).
      rewrite He in Hs. destruct Hs as [x Hx]. discriminate Hx.
  - rewrite star_k_Some. split.
    + intros (run & s' & -> & Hrun & H). exists s'.
      split; [constructor; exact Hrun | exact H].
    + intros (s' & Hm & H). inversion Hm; subst. eauto.
  - assert (Hk' : forall s1 (g1 g2 : option str),
               is_Some (k s1 (Some (take (length s - length s1) s))) ->
               is_Some (k s1 (Some (take (length s - length s1) s)))) by auto.
    rewrite (IH1 s g (fun s1 _ => k s1 (Some (take (length s - length s1) s))) Hk').
    split.
    + intros (s' & Hm & H). exists s'. split; [constructor; exact Hm |].
      exact (Hk _ _ _ H).
    + intros (s' & Hm & H). inversion Hm; subst. exists s'.
      split; [assumption | exact (Hk _ _ _ H)].
Qed.

Lemma match_at_Some (r : regex) (s : str) :
  is_Some (match_at r s) <-> exists s', matches r s s'.
Proof.
  unfold match_at. rewrite exec_Some by eauto. split.
  - intros (s' & Hm & _). eauto.
  - intros (s' & Hm). eauto.
Qed.

(** [search] finds a match exactly when the pattern matches at some place
    of the text. *)
Lemma search_Some (r : regex) (s : str) :
  is_Some (search r s) <-> exists pre t s', s = pre ++ t /\ matches r t s'.
Proof.
  induction s as [|c s IH]; cbn [search].
  - destruct (match_at r []) as [m|] eqn:Hm.
    + split; [intros _ | eauto].
      destruct (proj1 (match_at_Some r [])) as (s' & H); [rewrite Hm; eauto |].
      exists [], [], s'. auto.
    + split; [intros [x Hx]; discriminate Hx |].
      intros (pre & t & s' & Heq & H).
      symmetry in Heq. apply app_eq_nil in Heq as [_ ->].
      assert (Hs : is_Some (match_at r [])) by (apply match_at_Some; eauto).
      rewrite Hm in Hs. destruct Hs as [x Hx]. discriminate Hx.
  - destruct (match_at r (c :: s)) as [m|] eqn:Hm.
    + split; [intros _ | eauto].
      destruct (proj1 (match_at_Some r (c :: s))) as (s' & H); [rewrite Hm; eauto |].
      exists [], (c :: s), s'. auto.
    + rewrite IH. split.
      * intros (pre & t & s' & -> & H). exists (c :: pre), t, s'. auto.
      * intros (pre & t & s' & Heq & H). destruct pre as [|c' pre].
        -- cbn in Heq. subst t.
           assert (Hs : is_Some (match_at r (c :: s))) by (apply match_at_Some; eauto).
           rewrite Hm in Hs. destruct Hs as [x Hx]. discriminate Hx.
        -- cbn in Heq. injection Heq as <- ->. eauto.
Qed.

Lemma fires_true (r : regex) (line : str) :
  fires r line = true <-> exists pre t s', line = pre ++ t /\ matches r t s'.
Proof.
  rewrite <- search_Some. unfold fires.
  destruct (search r line); split; eauto; try discriminate.
  intros [x Hx]. discriminate Hx.
Qed.

(** *** The language of a literal *)

Lemma matches_chars (test : char -> char -> bool) (w s s' : str) :
  matches (foldr (fun c r => Cat (Chr (test c)) r) Eps w) s s' <->
  exists t, s = t ++ s' /\ Forall2 (fun c x => test c x = true) w t.
Proof.
  revert s. induction w as [|a w IH]; intros s; cbn [foldr].
  - split.
    + intros H. inversion H; subst. exists []. split; [reflexivity | constructor].
    + intros (t & -> & H). inversion H; subst. constructor.
  - split.
    + intros H. inversion H as [| |? ? ? s1 ? H1 H2| | | |]; subst.
      inversion H1; subst. apply IH in H2 as (t & -> & Ht).
      exists (c :: t). split; [reflexivity | constructor; assumption].
    + intros (t & -> & H). inversion H as [|? x ? t' Hx Ht]; subst.
      econstructor; [constructor; exact Hx |]. apply IH. eauto.
Qed.

Lemma Forall2_eqb (w t : str) :
  Forall2 (fun c x => (c =? x)%N = true) w t <-> t = w.
Proof.
  split.
  - induction 1 as [|c x w t Hc _ IH]; [reflexivity |].
    apply N.eqb_eq in Hc. congruence.
  - intros ->. induction w as [|c w IH]; constructor; [apply N.eqb_refl | exact IH].
Qed.

Lemma matches_lit (w : string) (s s' : str) :
  matches (lit w) s s' <-> s = u w ++ s'.
Proof.
  unfold lit, chars. rewrite matches_chars. split.
  - intros (t & -> & H). apply Forall2_eqb in H as ->. reflexivity.
  - intros ->. exists (u w). split; [reflexivity | apply Forall2_eqb; reflexivity].
Qed.

(** On an ASCII character, a plain literal character that ignores case
    compares with the lower-cased character. *)
Lemma ignorecase_eq_ascii (c t : char) :
  (c <? 128)%N && (ascii_tolower c =? c)%N = true -> (t < 128)%N ->
  ignorecase_eq c t = true <-> ascii_tolower t = c.
Proof.
  intros Hc Ht. apply andb_prop in Hc as [Hc Hlow].
  apply N.ltb_lt in Hc. apply N.eqb_eq in Hlow.
  unfold ignorecase_eq, sre_lower_unicode, ignorecase_fixes.
  destruct (N.ltb_spec t 128) as [_|]; [| lia].
  assert (Hlt : (ascii_tolower t < 128)%N).
  { unfold ascii_tolower, in_range.
    destruct (N.leb_spec 65 t), (N.leb_spec t 90); cbn; lia. }
  destruct (ascii_isalpha c) eqn:Ha.
  - rewrite Hlow. rewrite orb_true_iff, N.eqb_eq. split; [| auto].
    intros [H | H]; [exact H |]. exfalso.
    destruct (c =? 105)%N; [| destruct (c =? 115)%N];
      cbn in H; rewrite ?orb_false_r in H; try discriminate H;
      apply N.eqb_eq in H; lia.
  - rewrite N.eqb_eq. revert Ha Hlow. unfold ascii_isalpha, ascii_tolower, in_range.
    destruct (N.leb_spec 65 c), (N.leb_spec c 90), (N.leb_spec 97 c),
      (N.leb_spec c 122), (N.leb_spec 65 t), (N.leb_spec t 90);
      cbn; intros; try discriminate; lia.
Qed.

Lemma Forall2_ignorecase_ascii (w t : str) :
  plain_literal w = true -> is_ascii t ->
  Forall2 (fun c x => ignorecase_eq c x = true) w t <-> lower t = w.
Proof.
  unfold plain_literal, lower, is_ascii. revert t.
  induction w as [|c w IH]; intros t Hw Ht.
  - split; [intros H; inversion H; reflexivity |].
    destruct t; [constructor | discriminate].
  - cbn in Hw. apply andb_prop in Hw as [Hc Hw]. split.
    + intros H. inversion H as [|? x ? t' Hx Ht']; subst.
      apply Forall_cons in Ht as [Hx128 Ht]. cbn. f_equal.
      * apply (ignorecase_eq_ascii c x Hc Hx128), Hx.
      * apply (IH t' Hw Ht), Ht'.
    + destruct t as [|x t]; [discriminate |]. cbn. intros [= Hx Htl].
      apply Forall_cons in Ht as [Hx128 Ht]. constructor.
      * apply (ignorecase_eq_ascii c x Hc Hx128), Hx.
      * apply (IH t Hw Ht), Htl.
Qed.

Lemma is_ascii_app (a b : str) : is_ascii (a ++ b) <-> is_ascii a /\ is_ascii b.
Proof. apply Forall_app. Qed.

Lemma lower_app (a b : str) : lower (a ++ b) = lower a ++ lower b.
Proof. apply List.map_app. Qed.

(** A literal that ignores case, somewhere in an ASCII line. *)
Lemma ignorecase_literal_ascii (w line : str) :
  plain_literal w = true -> is_ascii line ->
  (exists pre v post, line = pre ++ v ++ post
     /\ Forall2 (fun c x => ignorecase_eq c x = true) w v)
  <-> contains w (lower line) = true.
Proof.
  intros Hw Hline. rewrite contains_spec. split.
  - intros (pre & v & post & -> & H).
    apply is_ascii_app in Hline as [_ Hline].
    apply is_ascii_app in Hline as [Hv _].
    apply (Forall2_ignorecase_ascii w v Hw Hv) in H.
    exists (lower pre), (lower post). rewrite !lower_app, H. reflexivity.
  - intros (a & b & Heq). unfold lower in Heq.
    apply List.map_eq_app in Heq as (pre & rest & -> & Hpre & Heq).
    apply List.map_eq_app in Heq as (v & post & -> & Hv & Hpost).
    exists pre, v, post. split; [reflexivity |].
    apply is_ascii_app in Hline as [_ Hline].
    apply is_ascii_app in Hline as [Hva _].
    apply (Forall2_ignorecase_ascii w v Hw Hva). exact Hv.
Qed.

(** *** The counting detectors *)

Lemma matches_liti (w : string) (s s' : str) :
  matches (liti w) s s' <->
  exists t, s = t ++ s' /\ Forall2 (fun c x => ignorecase_eq c x = true) (u w) t.
Proof. apply matches_chars. Qed.

Lemma bool_eq_iff (a b : bool) : (a = true <-> b = true) -> a = b.
Proof.
  destruct a, b; intros [H1 H2]; try reflexivity.
  - symmetry. exact (H1 eq_refl).
  - exact (H2 eq_refl).
Qed.

(** X7. The recursion-limit detector fires on a line exactly when the line
    holds [Recursion limit of ], one decimal digit or more, and [ reached];
    the line then adds one to [recursion_limit_hits], whatever the number and
    however many times the phrase stands in the line. *)
Theorem recursion_limit_detector :
  (forall line,
      fires _RECURSION_LIMIT_RE line = true <->
      exists pre digits post,
        line = pre ++ u "Recursion limit of " ++ digits ++ u " reached" ++ post
        /\ digits <> [] /\ forallb Py_UNICODE_ISDECIMAL digits = true)
  /\ (forall summary line, exists summary',
        analyse_line summary line = Ok summary'
        /\ recursion_limit_hits summary'
           = (recursion_limit_hits summary
              + if fires _RECURSION_LIMIT_RE line then 1 else 0)%Z).
Proof.
  split.
  - intros line. rewrite fires_true. unfold _RECURSION_LIMIT_RE, plus. split.
    + intros (pre & t & s' & -> & H).
      inversion H as [| |? ? ? s1 ? H1 H2| | | |]; subst.
      apply matches_lit in H1 as ->.
      inversion H2 as [| |? ? ? s2 ? H3 H4| | | |]; subst.
      apply matches_lit in H4 as ->.
      inversion H3 as [| | | | | |? ? ? H5]; subst.
      inversion H5 as [| |? ? ? s3 ? H6 H7| | | |]; subst.
      inversion H6 as [|? c ? Hc| | | | |]; subst.
      inversion H7 as [| | | | |? run ? Hrun|]; subst.
      exists pre, (c :: run), s'. split; [| split].
      * cbn [app]. rewrite <- ?app_assoc. reflexivity.
      * discriminate.
      * cbn. rewrite Hc, Hrun. reflexivity.
    + intros (pre & digits & post & -> & Hne & Hd).
      destruct digits as [|c run]; [contradiction |].
      cbn in Hd. apply andb_prop in Hd as [Hc Hrun].
      exists pre, (u "Recursion limit of " ++ (c :: run) ++ u " reached" ++ post), post.
      split; [reflexivity |].
      econstructor; [apply matches_lit; reflexivity |].
      econstructor; [| apply matches_lit; reflexivity].
      constructor. econstructor; [constructor; exact Hc |].
      constructor. exact Hrun.
  - intros summary line. exists (detectors line summary).
    split; [apply analyse_line_detectors |].
    rewrite detectors_fields. unfold fires. cbn.
    destruct (search _ line); reflexivity.
Qed.

(** X9. The draft-status detector fires on a line exactly when a part of the
    line equals [status set to 'draft'] up to case; on an ASCII line, exactly
    when the lower-cased line contains the phrase. The line then adds one to
    [draft_status_notes]. *)
Theorem draft_status_detector :
  (forall line,
      fires _STATUS_DRAFT_RE line = true <->
      exists pre v post,
        line = pre ++ v ++ post
        /\ Forall2 (fun c x => ignorecase_eq c x = true)
             (u "status set to 'draft'") v)
  /\ (forall line,
        is_ascii line ->
        fires _STATUS_DRAFT_RE line
        = contains (u "status set to 'draft'") (lower line))
  /\ (forall summary line, exists summary',
        analyse_line summary line = Ok summary'
        /\ draft_status_notes summary'
           = (draft_status_notes summary
              + if fires _STATUS_DRAFT_RE line then 1 else 0)%Z).
Proof.
  assert (Hfires : forall line,
             fires _STATUS_DRAFT_RE line = true <->
             exists pre v post,
               line = pre ++ v ++ post
               /\ Forall2 (fun c x => ignorecase_eq c x = true)
                    (u "status set to 'draft'") v).
  { intros line. rewrite fires_true. unfold _STATUS_DRAFT_RE. split.
    - intros (pre & t & s' & -> & H). apply matches_liti in H as (v & -> & H).
      eauto.
    - intros (pre & v & post & -> & H). exists pre, (v ++ post), post.
      split; [reflexivity |]. apply matches_liti. eauto. }
  split; [exact Hfires |]. split.
  - intros line Hline. apply bool_eq_iff.
    rewrite Hfires. apply ignorecase_literal_ascii; [reflexivity | exact Hline].
  - intros summary line. exists (detectors line summary).
    split; [apply analyse_line_detectors |].
    rewrite detectors_fields. unfold fires. cbn.
    destruct (search _ line); reflexivity.
Qed.

(** X10. The future-date detector fires on an ASCII line exactly when the
    lower-cased line contains [future date] or [future-looking date] (the
    plural [s] of the pattern changes nothing). The line then adds one to
    [future_dated_metadata_notes]. *)
Theorem future_date_detector :
  (forall line,
      is_ascii line ->
      fires _FUTURE_DATE_RE line
      = contains (u "future date") (lower line)
        || contains (u "future-looking date") (lower line))
  /\ (forall summary line, exists summary',
        analyse_line summary line = Ok summary'
        /\ future_dated_metadata_notes summary'
           = (future_dated_metadata_notes summary
              + if fires _FUTURE_DATE_RE line then 1 else 0)%Z).
Proof.
  split.
  - intros line Hline. apply bool_eq_iff. rewrite orb_true_iff.
    rewrite <- !(ignorecase_literal_ascii _ line) by (reflexivity || exact Hline).
    rewrite fires_true. unfold _FUTURE_DATE_RE. split.
    + intros (pre & t & s' & -> & H).
      inversion H as [| |? ? ? s1 ? H1 H2| | | |]; subst.
      apply matches_liti in H1 as (v1 & -> & Hv1).
      inversion H2 as [| |? ? ? s2 ? H3 H4| | | |]; subst.
      inversion H4 as [| |? ? ? s3 ? H5 H6| | | |]; subst.
      apply matches_liti in H5 as (v3 & -> & Hv3).
      inversion H3 as [| | |? ? ? H7|? ?| |]; subst.
      * apply matches_liti in H7 as (v2 & -> & Hv2). right.
        exists pre, (v1 ++ v2 ++ v3), s3.
        split; [rewrite <- ?app_assoc; reflexivity |].
        change (u "future-looking date")
          with (u "future" ++ u "-looking" ++ u " date").
        repeat apply Forall2_app; assumption.
      * left. exists pre, (v1 ++ v3), s3.
        split; [rewrite <- ?app_assoc; reflexivity |].
        change (u "future date") with (u "future" ++ u " date").
        apply Forall2_app; assumption.
    + intros [(pre & v & post & -> & H) | (pre & v & post & -> & H)].
      * change (u "future date") with (u "future" ++ u " date") in H.
        apply Forall2_app_inv_l in H as (v1 & v3 & Hv1 & Hv3 & ->).
        exists pre, ((v1 ++ v3) ++ post), post. split; [reflexivity |].
        rewrite <- ?app_assoc.
        econstructor; [apply matches_liti; eauto |].
        econstructor; [apply matches_Opt_none |].
        econstructor; [apply matches_liti; eauto |].
        apply matches_Opt_none.
      * change (u "future-looking date")
          with (u "future" ++ u "-looking" ++ u " date") in H.
        apply Forall2_app_inv_l in H as (v1 & v23 & Hv1 & H & ->).
        apply Forall2_app_inv_l in H as (v2 & v3 & Hv2 & Hv3 & ->).
        exists pre, ((v1 ++ v2 ++ v3) ++ post), post. split; [reflexivity |].
        rewrite <- ?app_assoc.
        econstructor; [apply matches_liti; eauto |].
        econstructor; [apply matches_Opt_some, matches_liti; eauto |].
        econstructor; [apply matches_liti; eauto |].
        apply matches_Opt_none.
  - intros summary line. exists (detectors line summary).
    split; [apply analyse_line_detectors |].
    rewrite detectors_fields. unfold fires. cbn.
    destruct (search _ line); reflexivity.
Qed.

(** *** A scan as a function of its lines *)

Lemma merge_summary_empty_r (s : IssueSummary) :
  merge_summary s (scan_summary []) = s.
Proof.
  destruct s. unfold merge_summary, scan_summary, count_lines. cbn.
  rewrite app_nil_r, !Z.add_0_r, !(right_id_L ∅ (∪)). reflexivity.
Qed.

Lemma merge_summary_empty_l (s : IssueSummary) :
  merge_summary empty_summary s = s.
Proof.
  destruct s. unfold merge_summary. cbn.
  rewrite !(left_id_L ∅ (∪)), !overwrite_None.
  repeat match goal with |- context [(0 + ?x)%Z] => rewrite (Z.add_0_l x) end.
  reflexivity.
Qed.

Lemma count_lines_cons (p : str -> bool) (line : str) (lines : list str) :
  count_lines p (line :: lines)
  = ((if p line then 1 else 0) + count_lines p lines)%Z.
Proof.
  unfold count_lines. cbn [List.filter].
  destruct (p line); cbn [length]; lia.
Qed.

Lemma overwrite_assoc (a b c : option Z) :
  overwrite (overwrite a b) c = overwrite a (overwrite b c).
Proof. destruct c; reflexivity. Qed.

Lemma last_omap_cons_overwrite (f : str -> option Z) (line : str)
  (lines : list str) :
  last (omap f (line :: lines)) = overwrite (f line) (last (omap f lines)).
Proof. rewrite last_omap_cons. destruct (last (omap f lines)); reflexivity. Qed.

Lemma detectors_merge (line : str) (lines : list str) (s : IssueSummary) :
  merge_summary (detectors line s) (scan_summary lines)
  = merge_summary s (scan_summary (line :: lines)).
Proof.
  rewrite detectors_fields. unfold merge_summary, scan_summary.
  cbn [oscillation_messages missing_backticks unacceptable_control_codes
       recursion_limit_hits qa_verification_none_errors draft_status_notes
       future_dated_metadata_notes notes_processed notes_with_errors].
  rewrite !count_lines_cons, !last_omap_cons_overwrite, !overwrite_assoc.
  unfold fires, backticks_name, control_code.
  cbn [omap list_omap].
  f_equal.
  - destruct (oscillation_entry line); cbn; rewrite <- app_assoc; reflexivity.
  - destruct (search _MISSING_BACKTICKS_RE line); cbn;
      rewrite <- (assoc_L (∪)), ?(left_id_L ∅ (∪)); reflexivity.
  - destruct (search _UNACCEPTABLE_CHAR_RE line); cbn;
      rewrite <- (assoc_L (∪)), ?(left_id_L ∅ (∪)); reflexivity.
  - destruct (search _RECURSION_LIMIT_RE line); lia.
  - lia.
  - destruct (search _STATUS_DRAFT_RE line); lia.
  - destruct (search _FUTURE_DATE_RE line); lia.
Qed.

Lemma analyse_loop_merge (lines : list str) (s : IssueSummary) :
  analyse_loop s lines = Ok (merge_summary s (scan_summary lines)).
Proof.
  revert s. induction lines as [|line lines IH]; intros s.
  - rewrite merge_summary_empty_r. reflexivity.
  - cbn [analyse_loop]. rewrite analyse_line_detectors.
    cbn [mbind result_bind]. rewrite IH, detectors_merge. reflexivity.
Qed.

Lemma analyse_loop_empty (lines : list str) :
  analyse_loop empty_summary lines = Ok (scan_summary lines).
Proof.
  rewrite analyse_loop_merge, merge_summary_empty_l. reflexivity.
Qed.

(** X1. After a scan the messages are the oscillation entries of the lines in
    order, each set holds what its detector captured on the lines, each
    counter is the number of lines on which its detector fires, and each
    metric is that of the last line that reports one. *)
Theorem analyse_lines_closed_form :
  forall lines, analyse_lines lines = Ok (scan_summary lines).
Proof.
  intros lines. unfold analyse_lines. apply analyse_loop_empty.
Qed.

(** X2. Analysing two logs one after the other is merging their summaries:
    counters add, sets unite, messages follow each other, and a metric of
    the second log replaces that of the first. *)
Theorem analyse_lines_app :
  forall lines1 lines2, exists s1 s2,
    analyse_lines lines1 = Ok s1 /\ analyse_lines lines2 = Ok s2
    /\ analyse_lines (lines1 ++ lines2) = Ok (merge_summary s1 s2).
Proof.
  intros lines1 lines2.
  exists (scan_summary lines1), (scan_summary lines2).
  split; [apply analyse_loop_empty |].
  split; [apply analyse_loop_empty |].
  unfold analyse_lines.
  rewrite (analyse_loop_app lines1 lines2 empty_summary (scan_summary lines1))
    by apply analyse_loop_empty.
  apply analyse_loop_merge.
Qed.

Lemma count_lines_perm (p : str -> bool) (lines lines' : list str) :
  lines ≡ₚ lines' -> count_lines p lines = count_lines p lines'.
Proof.
  intros H. induction H as [|x l l' _ IH|x y l|l1 l2 l3 _ IH1 _ IH2].
  - reflexivity.
  - rewrite !count_lines_cons, IH. reflexivity.
  - rewrite !count_lines_cons. lia.
  - congruence.
Qed.

Lemma count_lines_bounds (p : str -> bool) (lines : list str) :
  (0 <= count_lines p lines <= Z.of_nat (length lines))%Z.
Proof.
  induction lines as [|line lines IH];
    [unfold count_lines; cbn [List.filter length]; lia |].
  rewrite count_lines_cons. cbn [length]. destruct (p line); lia.
Qed.

(** X3. The four counters and the two sets do not depend on the order of the
    lines. *)
Theorem analyse_lines_permutation :
  forall lines lines',
    lines ≡ₚ lines' ->
    exists s s',
      analyse_lines lines = Ok s /\ analyse_lines lines' = Ok s'
      /\ recursion_limit_hits s = recursion_limit_hits s'
      /\ qa_verification_none_errors s = qa_verification_none_errors s'
      /\ draft_status_notes s = draft_status_notes s'
      /\ future_dated_metadata_notes s = future_dated_metadata_notes s'
      /\ missing_backticks s = missing_backticks s'
      /\ unacceptable_control_codes s = unacceptable_control_codes s'.
Proof.
  intros lines lines' H. exists (scan_summary lines), (scan_summary lines').
  split; [apply analyse_loop_empty |].
  split; [apply analyse_loop_empty |].
  unfold scan_summary. cbn.
  repeat split; try (apply count_lines_perm; exact H).
  - apply list_to_set_perm_L. rewrite H. reflexivity.
  - apply list_to_set_perm_L. rewrite H. reflexivity.
Qed.

(** X4. A line counts at most once for each counter: after a scan every
    counter lies between zero and the number of lines. *)
Theorem counters_bounded :
  forall lines, exists s,
    analyse_lines lines = Ok s
    /\ (0 <= recursion_limit_hits s <= Z.of_nat (length lines))%Z
    /\ (0 <= qa_verification_none_errors s <= Z.of_nat (length lines))%Z
    /\ (0 <= draft_status_notes s <= Z.of_nat (length lines))%Z
    /\ (0 <= future_dated_metadata_notes s <= Z.of_nat (length lines))%Z.
Proof.
  intros lines. exists (scan_summary lines).
  split; [apply analyse_loop_empty |].
  unfold scan_summary. cbn. repeat split; apply count_lines_bounds.
Qed.

(** *** The capturing detectors *)

(** A greedy repetition gives nothing back when the pattern that follows
    cannot start with a character of the class. *)
Lemma star_k_greedy {R : Type} (p : char -> bool) (s : str)
  (k : str -> option R) :
  (forall c s', p c = true -> k (c :: s') = None) ->
  star_k p s k = k (drop_while p s).
Proof.
  intros Hk. induction s as [|c s IH]; [reflexivity |].
  cbn [star_k drop_while]. destruct (p c) eqn:Hc; [| reflexivity].
  rewrite IH. destruct (k (drop_while p s)); [reflexivity |].
  apply Hk, Hc.
Qed.

Lemma search_fmap {A : Type} (f : re_match -> A) (r : regex) (s : str) :
  f <$> search r s
  = match f <$> match_at r s with
    | Some x => Some x
    | None =>
        match s with
        | [] => None
        | _ :: s' => f <$> search r s'
        end
    end.
Proof. destruct s; cbn [search]; destruct (match_at r _); reflexivity. Qed.

Lemma take_length_drop_while (p : char -> bool) (c : char) (s : str) :
  take (length (c :: s) - length (drop_while p s)) (c :: s)
  = c :: take_while p s.
Proof.
  rewrite length_drop_while. pose proof (length_take_while p s) as Hle.
  cbn [length].
  replace (S (length s) - (length s - length (take_while p s)))
    with (S (length (take_while p s))) by lia.
  cbn [take]. rewrite take_while_prefix. reflexivity.
Qed.

Lemma take_drop_while (p : char -> bool) (s : str) :
  take_while p s ++ drop_while p s = s.
Proof.
  induction s as [|c s IH]; [reflexivity |].
  cbn. destruct (p c); [cbn; f_equal; exact IH | reflexivity].
Qed.

Lemma forallb_take_while (p : char -> bool) (s : str) :
  forallb p (take_while p s) = true.
Proof.
  induction s as [|c s IH]; [reflexivity |].
  cbn. destruct (p c) eqn:Hc; [cbn; rewrite Hc; exact IH | reflexivity].
Qed.

(** The missing-backticks pattern at one position: the name is the longest
    run without a quote after the opening literal; it must not be empty and
    the closing literal must follow it. *)
Lemma match_at_backticks (s : str) :
  group_1 <$> match_at _MISSING_BACKTICKS_RE s
  = if starts_with (u "Type name '") s
    then match drop (length (u "Type name '")) s with
         | c :: rest =>
             if not_char 39 c
                && starts_with (u "' found without backticks")
                     (drop_while (not_char 39) rest)
             then Some (c :: take_while (not_char 39) rest)
             else None
         | [] => None
         end
    else None.
Proof.
  unfold match_at, _MISSING_BACKTICKS_RE, lit, chars, plus.
  cbn [exec]. rewrite exec_chars_eqb.
  destruct (starts_with (u "Type name '") s); [| reflexivity].
  destruct (drop (length (u "Type name '")) s) as [|c rest]; [reflexivity |].
  destruct (not_char 39 c) eqn:Hc; [| reflexivity].
  rewrite star_k_greedy.
  - rewrite exec_chars_eqb.
    destruct (starts_with _ (drop_while (not_char 39) rest)); [| reflexivity].
    rewrite take_length_drop_while. reflexivity.
  - intros c' s' Hc'. rewrite exec_chars_eqb.
    unfold not_char in Hc'. cbn [u List.map list_ascii_of_string starts_with].
    change (N_of_ascii "'") with 39%N.
    rewrite N.eqb_sym. destruct (c' =? 39)%N; [discriminate Hc' | reflexivity].
Qed.

(** X5. The missing-backticks detector takes from a line a name that stands in
    it between [Type name '] and [' found without backticks], not empty and
    without a quote; a line that holds such a name gives one; and the name
    taken is the one after the first [Type name '] of the line when that one
    is well formed. A scan collects the names of its lines. *)
Theorem missing_backticks_detector :
  (forall line name,
      backticks_name line = Some name ->
      exists pre post,
        line = pre ++ u "Type name '" ++ name ++ u "' found without backticks" ++ post
        /\ name <> [] /\ forallb (not_char 39) name = true)
  /\ (forall pre name post,
        name <> [] -> forallb (not_char 39) name = true ->
        is_Some (backticks_name
                   (pre ++ u "Type name '" ++ name
                    ++ u "' found without backticks" ++ post)))
  /\ (forall line name post,
        suffix_from (u "Type name '") line
        = Some (u "Type name '" ++ name ++ u "' found without backticks" ++ post) ->
        name <> [] -> forallb (not_char 39) name = true ->
        backticks_name line = Some name)
  /\ (forall summary line, exists summary',
        analyse_line summary line = Ok summary'
        /\ missing_backticks summary'
           = missing_backticks summary ∪ list_to_set (option_list (backticks_name line)))
  /\ (forall lines, exists summary,
        analyse_lines lines = Ok summary
        /\ missing_backticks summary = list_to_set (omap backticks_name lines)).
Proof.
  split; [| split; [| split; [| split]]].
  - intros line. unfold backticks_name.
    induction line as [|c0 line IH]; intros name; rewrite search_fmap, match_at_backticks.
    + cbn. discriminate.
    + destruct (starts_with (u "Type name '") (c0 :: line)) eqn:Hs.
      * apply starts_with_inv in Hs.
        destruct (drop (length (u "Type name '")) (c0 :: line)) as [|c rest] eqn:Hd.
        -- intros H. destruct (IH _ H) as (pre & post & -> & Hn).
           exists (c0 :: pre), post. split; [reflexivity | exact Hn].
        -- destruct (not_char 39 c) eqn:Hc; cbn [andb].
           ++ destruct (starts_with _ (drop_while (not_char 39) rest)) eqn:Hp.
              ** intros [= <-]. apply starts_with_inv in Hp.
                 exists [], (drop (length (u "' found without backticks"))
                               (drop_while (not_char 39) rest)).
                 split; [| split].
                 --- cbn [app]. rewrite Hs at 1. f_equal.
                     rewrite <- Hp. cbn [app]. f_equal.
                     symmetry. apply take_drop_while.
                 --- discriminate.
                 --- cbn. rewrite Hc. apply forallb_take_while.
              ** intros H. destruct (IH _ H) as (pre & post & -> & Hn).
                 exists (c0 :: pre), post. split; [reflexivity | exact Hn].
           ++ intros H. destruct (IH _ H) as (pre & post & -> & Hn).
              exists (c0 :: pre), post. split; [reflexivity | exact Hn].
      * intros H. destruct (IH _ H) as (pre & post & -> & Hn).
        exists (c0 :: pre), post. split; [reflexivity | exact Hn].
  - intros pre name post Hne Hq. unfold backticks_name.
    rewrite fmap_is_Some. apply search_Some.
    destruct name as [|c run]; [contradiction |].
    cbn in Hq. apply andb_prop in Hq as [Hc Hrun].
    eexists pre, _, post. split; [reflexivity |].
    unfold _MISSING_BACKTICKS_RE, plus.
    econstructor; [apply matches_lit; reflexivity |].
    econstructor; [| apply matches_lit; reflexivity].
    constructor. econstructor; [constructor; exact Hc |].
    constructor. exact Hrun.
  - intros line name post. unfold backticks_name.
    induction line as [|c0 line IH]; intros Hsuf Hne Hq;
      rewrite search_fmap, match_at_backticks; cbn [suffix_from] in Hsuf.
    + destruct (starts_with (u "Type name '") []); discriminate Hsuf.
    + destruct (starts_with (u "Type name '") (c0 :: line)) eqn:Hs.
      * apply (inj Some) in Hsuf. rewrite Hsuf.
        rewrite drop_app_length.
        destruct name as [|c run]; [contradiction |].
        cbn in Hq. apply andb_prop in Hq as [Hc Hrun].
        cbn [app]. rewrite Hc.
        assert (Hrest : forall rest,
                   take_while (not_char 39)
                     (run ++ u "' found without backticks" ++ rest) = run
                   /\ drop_while (not_char 39)
                        (run ++ u "' found without backticks" ++ rest)
                      = u "' found without backticks" ++ rest).
        { intros rest. clear -Hrun. induction run as [|x run IHr].
          - split; reflexivity.
          - cbn in Hrun. apply andb_prop in Hrun as [Hx Hrun].
            destruct (IHr Hrun) as [Ht Hd]. cbn [app take_while drop_while].
            rewrite Hx, Ht, Hd. split; reflexivity. }
        destruct (Hrest post) as [-> ->].
        rewrite starts_with_app. reflexivity.
      * exact (IH Hsuf Hne Hq).
  - intros summary line. exists (detectors line summary).
    split; [apply analyse_line_detectors |].
    rewrite detectors_fields. unfold backticks_name. cbn.
    destruct (search _ line); cbn; [rewrite (right_id_L ∅ (∪)) |]; reflexivity.
  - intros lines. exists (scan_summary lines).
    split; [apply analyse_loop_empty | reflexivity].
Qed.

Lemma lower_hex (c : char) : is_hex c = true -> is_lower_hex (ascii_tolower c) = true.
Proof.
  intros H. unfold is_hex, in_range in H.
  rewrite !orb_true_iff, !andb_true_iff, !N.leb_le in H.
  unfold is_lower_hex, ascii_tolower, in_range.
  destruct (N.leb_spec 65 c), (N.leb_spec c 90); cbn [andb];
    rewrite !orb_true_iff, !andb_true_iff, !N.leb_le; lia.
Qed.

(** The control-character pattern at one position. *)
Lemma match_at_control_code (s : str) :
  (fun m => lower (group_1 m)) <$> match_at _UNACCEPTABLE_CHAR_RE s
  = if starts_with (u "unacceptable character #x") s
    then match drop (length (u "unacceptable character #x")) s with
         | h1 :: h2 :: h3 :: h4 :: _ =>
             if is_hex h1 && is_hex h2 && is_hex h3 && is_hex h4
             then Some (lower [h1; h2; h3; h4])
             else None
         | _ => None
         end
    else None.
Proof.
  unfold match_at, _UNACCEPTABLE_CHAR_RE, lit, chars.
  cbn [exec]. rewrite exec_chars_eqb.
  destruct (starts_with (u "unacceptable character #x") s); [| reflexivity].
  destruct (drop (length (u "unacceptable character #x")) s)
    as [|h1 [|h2 [|h3 [|h4 rest]]]]; try reflexivity.
  - destruct (is_hex h1); reflexivity.
  - destruct (is_hex h1); [destruct (is_hex h2) |]; reflexivity.
  - destruct (is_hex h1); [destruct (is_hex h2); [destruct (is_hex h3) |] |];
      reflexivity.
  - destruct (is_hex h1); [| reflexivity].
    destruct (is_hex h2); [| reflexivity].
    destruct (is_hex h3); [| reflexivity].
    destruct (is_hex h4); [| reflexivity].
    cbn [andb fmap option_fmap option_map group_1 group1 default from_option id].
    do 2 f_equal. cbn [length].
    replace (S (S (S (S (length rest)))) - length rest) with 4 by lia.
    reflexivity.
Qed.

(** X6. The control-character detector takes from a line the four hexadecimal
    digits that follow an [unacceptable character #x] of the line, in lower
    case; a line that holds the phrase with four such digits gives a code;
    and after a scan every code of the summary is four lower-case
    hexadecimal digits. *)
Theorem control_code_detector :
  (forall line code,
      control_code line = Some code ->
      exists pre digits post,
        line = pre ++ u "unacceptable character #x" ++ digits ++ post
        /\ length digits = 4 /\ forallb is_hex digits = true
        /\ code = lower digits)
  /\ (forall pre digits post,
        length digits = 4 -> forallb is_hex digits = true ->
        is_Some (control_code
                   (pre ++ u "unacceptable character #x" ++ digits ++ post)))
  /\ (forall summary line, exists summary',
        analyse_line summary line = Ok summary'
        /\ unacceptable_control_codes summary'
           = unacceptable_control_codes summary
             ∪ list_to_set (option_list (control_code line)))
  /\ (forall lines, exists summary,
        analyse_lines lines = Ok summary
        /\ unacceptable_control_codes summary
           = list_to_set (omap control_code lines)
        /\ forall code,
             code ∈ unacceptable_control_codes summary ->
             length code = 4 /\ forallb is_lower_hex code = true).
Proof.
  assert (Hsound : forall line code,
             control_code line = Some code ->
             exists pre digits post,
               line = pre ++ u "unacceptable character #x" ++ digits ++ post
               /\ length digits = 4 /\ forallb is_hex digits = true
               /\ code = lower digits).
  { intros line. unfold control_code.
    induction line as [|c0 line IH]; intros code;
      rewrite search_fmap, match_at_control_code.
    - cbn. discriminate.
    - assert (Hnext : (fun m => lower (group_1 m)) <$> search _UNACCEPTABLE_CHAR_RE line
                      = Some code ->
                      exists pre digits post,
                        c0 :: line
                        = pre ++ u "unacceptable character #x" ++ digits ++ post
                        /\ length digits = 4 /\ forallb is_hex digits = true
                        /\ code = lower digits).
      { intros H. destruct (IH _ H) as (pre & digits & post & -> & Hn).
        exists (c0 :: pre), digits, post. split; [reflexivity | exact Hn]. }
      destruct (starts_with (u "unacceptable character #x") (c0 :: line)) eqn:Hs;
        [| exact Hnext].
      apply starts_with_inv in Hs.
      destruct (drop (length (u "unacceptable character #x")) (c0 :: line))
        as [|h1 [|h2 [|h3 [|h4 rest]]]]; try exact Hnext.
      destruct (is_hex h1 && is_hex h2 && is_hex h3 && is_hex h4) eqn:Hh;
        [| exact Hnext].
      intros [= <-]. exists [], [h1; h2; h3; h4], rest.
      split; [exact Hs |]. split; [reflexivity |]. split; [| reflexivity].
      cbn. rewrite andb_true_r, !andb_assoc. exact Hh. }
  split; [exact Hsound |]. split; [| split].
  - intros pre digits post Hlen Hhex. unfold control_code.
    rewrite fmap_is_Some. apply search_Some.
    destruct digits as [|h1 [|h2 [|h3 [|h4 [|]]]]]; try discriminate Hlen.
    cbn in Hhex. rewrite andb_true_r in Hhex.
    apply andb_prop in Hhex as [H1 Hhex]. apply andb_prop in Hhex as [H2 Hhex].
    apply andb_prop in Hhex as [H3 H4].
    eexists pre, _, post. split; [reflexivity |].
    unfold _UNACCEPTABLE_CHAR_RE.
    econstructor; [apply matches_lit; reflexivity |].
    constructor. cbn [app].
    econstructor; [constructor; exact H1 |].
    econstructor; [constructor; exact H2 |].
    econstructor; [constructor; exact H3 |].
    constructor; exact H4.
  - intros summary line. exists (detectors line summary).
    split; [apply analyse_line_detectors |].
    rewrite detectors_fields. unfold control_code. cbn.
    destruct (search _ line); cbn; [rewrite (right_id_L ∅ (∪)) |]; reflexivity.
  - intros lines. exists (scan_summary lines).
    split; [apply analyse_loop_empty |]. split; [reflexivity |].
    intros code. cbn [scan_summary unacceptable_control_codes].
    rewrite elem_of_list_to_set, list_elem_of_omap.
    intros (line & _ & H).
    destruct (Hsound _ _ H) as (pre & digits & post & _ & Hlen & Hhex & ->).
    unfold lower. rewrite length_map. split; [exact Hlen |].
    clear -Hhex. induction digits as [|h digits IH]; [reflexivity |].
    cbn in Hhex. apply andb_prop in Hhex as [Hh Hd].
    cbn. rewrite (lower_hex _ Hh). exact (IH Hd).
Qed.

(** X8. The QA detector fires on a line exactly when the line contains
    [argument of type 'NoneType' is not iterable], letter for letter; the
    line then adds one to [qa_verification_none_errors]. *)
Theorem qa_none_detector :
  (forall line,
      contains (u "argument of type 'NoneType' is not iterable") line = true <->
      exists pre post,
        line = pre ++ u "argument of type 'NoneType' is not iterable" ++ post)
  /\ (forall summary line, exists summary',
        analyse_line summary line = Ok summary'
        /\ qa_verification_none_errors summary'
           = (qa_verification_none_errors summary
              + if contains (u "argument of type 'NoneType' is not iterable") line
                then 1 else 0)%Z).
Proof.
  split; [intros line; apply contains_spec |].
  intros summary line. exists (detectors line summary).
  split; [apply analyse_line_detectors |].
  rewrite detectors_fields. reflexivity.
Qed.

(** *** Line breaks *)

(** A line break ends the line; a carriage return takes a line feed that
    follows it. *)
Lemma splitlines_aux_break (c : char) (s cur : str) :
  Py_UNICODE_ISLINEBREAK c = true ->
  splitlines_aux cur (c :: s)
  = cur :: splitlines_aux []
             (if (c =? 13)%N then (if s is 10%N :: s' then s' else s) else s).
Proof.
  intros Hc. cbn [splitlines_aux]. rewrite Hc. f_equal.
  destruct (N.eqb_spec c 13) as [-> | Hne].
  - destruct s as [|x s]; [reflexivity |].
    destruct (N.eqb_spec x 10) as [-> | Hx]; [reflexivity |].
    destruct x as [|[[[[]|[]|]|[[]|[]|]|]|[[[]|[]|]|[[]|[]|]|]|]];
      try reflexivity; contradiction.
  - destruct c as [|[[[[]|[]|]|[[]|[]|]|]|[[[]|[]|]|[[]|[]|]|]|]];
      try reflexivity; contradiction.
Qed.

Lemma splitlines_aux_sep (sep rest cur : str) :
  line_break sep -> (sep = [13%N] -> head rest <> Some 10%N) ->
  splitlines_aux cur (sep ++ rest) = cur :: splitlines_aux [] rest.
Proof.
  intros [-> | (c & -> & Hc)] Hhead; [reflexivity |].
  cbn [app]. rewrite (splitlines_aux_break c rest cur Hc).
  destruct (N.eqb_spec c 13) as [-> | Hne]; [| reflexivity].
  destruct rest as [|x rest]; [reflexivity |].
  destruct (N.eqb_spec x 10) as [-> | Hx].
  - exfalso. apply Hhead; reflexivity.
  - destruct x as [|[[[[]|[]|]|[[]|[]|]|]|[[[]|[]|]|[[]|[]|]|]|]];
      try reflexivity; contradiction.
Qed.

Lemma head_join_cr (lines : list str) :
  Forall no_linebreak lines -> head (join [13%N] lines) <> Some 10%N.
Proof.
  destruct lines as [|line rest]; [discriminate |].
  intros H. apply Forall_cons in H as [Hline _].
  assert (Hh : forall tl, tl = [] \/ head tl = Some 13%N ->
                          head (line ++ tl) <> Some 10%N).
  { intros tl Htl. destruct line as [|c line].
    - cbn [app]. destruct Htl as [-> | Htl]; [discriminate | rewrite Htl; discriminate].
    - apply Forall_cons in Hline as [Hc _]. cbn. intros [= ->]. discriminate Hc. }
  destruct rest as [|line2 rest]; cbn [join].
  - rewrite <- (app_nil_r line). apply Hh. left. reflexivity.
  - apply Hh. right. reflexivity.
Qed.

Lemma splitlines_join_sep (sep : str) (lines : list str) :
  line_break sep -> Forall no_linebreak lines ->
  splitlines (join sep lines) = lines
  \/ exists lines',
       lines = lines' ++ [[]] /\ splitlines (join sep lines) = lines'.
Proof.
  intros Hsep. induction lines as [|line rest IH]; intros H; [left; reflexivity |].
  apply Forall_cons in H as [Hline Hrest].
  destruct rest as [|line2 rest].
  - cbn [join]. unfold splitlines.
    pose proof (splitlines_aux_line line [] [] Hline) as Hs.
    rewrite app_nil_r in Hs. rewrite Hs. cbn [app splitlines_aux].
    destruct line as [|c line]; [right; exists []; split; reflexivity |].
    left. reflexivity.
  - change (join sep (line :: line2 :: rest))
      with (line ++ sep ++ join sep (line2 :: rest)).
    unfold splitlines.
    rewrite (splitlines_aux_line _ _ _ Hline), splitlines_aux_sep;
      [| exact Hsep | intros ->; apply head_join_cr, Hrest].
    fold (splitlines (join sep (line2 :: rest))).
    destruct (IH Hrest) as [Heq | (lines' & Heq & Hs)].
    + left. rewrite Heq. reflexivity.
    + right. exists (line :: lines'). rewrite Hs, Heq. split; reflexivity.
Qed.

Lemma splitlines_aux_final_newline (n : nat) :
  forall (text cur : str),
    length text <= n ->
    splitlines_aux cur (text ++ newline) = splitlines_aux cur text
    \/ splitlines_aux cur (text ++ newline) = splitlines_aux cur text ++ [[]].
Proof.
  induction n as [|n IH]; intros text cur Hlen.
  - destruct text; [| cbn in Hlen; lia].
    destruct cur; [right | left]; reflexivity.
  - destruct text as [|c text].
    { destruct cur; [right | left]; reflexivity. }
    cbn [length] in Hlen.
    destruct (Py_UNICODE_ISLINEBREAK c) eqn:Hc.
    + cbn [app]. rewrite !(splitlines_aux_break c _ cur Hc).
      assert (Hcons : forall a b : str,
                 length b <= n ->
                 cur :: splitlines_aux [] (b ++ newline)
                 = cur :: splitlines_aux [] b
                 \/ cur :: splitlines_aux [] (b ++ newline)
                    = (cur :: splitlines_aux [] b) ++ [[]]).
      { intros _ b Hb. destruct (IH b [] Hb) as [-> | ->]; [left | right]; reflexivity. }
      destruct (c =? 13)%N; [| apply (Hcons []); lia].
      destruct text as [|x text]; [left; reflexivity |].
      cbn [app].
      destruct (N.eqb_spec x 10) as [-> | Hx].
      * apply (Hcons []). cbn [length] in Hlen. lia.
      * assert (Hsame : forall (A : Type) (a b : A),
                   (if x :: text is 10%N :: s' then a else b) = b).
        { intros A a b.
          destruct x as [|[[[[]|[]|]|[[]|[]|]|]|[[[]|[]|]|[[]|[]|]|]|]];
            try reflexivity; contradiction. }
        assert (Hsame' : forall (A : Type) (a b : A),
                   (if x :: text ++ newline is 10%N :: s' then a else b) = b).
        { intros A a b.
          destruct x as [|[[[[]|[]|]|[[]|[]|]|]|[[[]|[]|]|[[]|[]|]|]|]];
            try reflexivity; contradiction. }
        rewrite Hsame, Hsame'. apply (Hcons [] (x :: text)). lia.
    + cbn [app splitlines_aux]. rewrite Hc. apply IH. lia.
Qed.

(** X11. [analyse_log_text] gives the same summary whatever break separates
    the lines of the text (line feed, carriage return, both, or another
    break that [splitlines] knows), and a line feed at the end of the text
    changes nothing. *)
Theorem analyse_log_text_line_breaks :
  (forall sep lines,
      line_break sep -> Forall no_linebreak lines ->
      analyse_log_text (join sep lines) = analyse_lines lines)
  /\ (forall text,
        analyse_log_text (text ++ newline) = analyse_log_text text).
Proof.
  split.
  - intros sep lines Hsep H. unfold analyse_log_text, analyse_lines.
    destruct (splitlines_join_sep sep lines Hsep H) as [-> | (lines' & -> & ->)];
      [reflexivity |].
    rewrite analyse_loop_snoc_empty. reflexivity.
  - intros text. unfold analyse_log_text, analyse_lines, splitlines.
    destruct (splitlines_aux_final_newline (length text) text [] (le_n _))
      as [-> | ->]; [reflexivity |].
    apply analyse_loop_snoc_empty.
Qed.

(** *** The seven basic recommendations *)















(** *** What the report shows *)

Lemma Ok_inj {A : Type} (a b : A) : Ok a = Ok b -> a = b.
Proof. intros [= ->]. reflexivity. Qed.

Lemma join_elem (sep x : str) (items : list str) :
  x ∈ items -> exists pre post, join sep items = pre ++ x ++ post.
Proof.
  induction items as [|y items IH]; intros Hin; [inversion Hin |].
  apply elem_of_cons in Hin as [-> | Hin].
  - destruct items as [|z items].
    + exists [], []. cbn. rewrite app_nil_r. reflexivity.
    + exists [], (sep ++ join sep (z :: items)). reflexivity.
  - destruct (IH Hin) as (pre & post & Heq).
    destruct items as [|z items]; [inversion Hin |].
    exists (y ++ sep ++ pre), post.
    change (join sep (y :: z :: items)) with (y ++ sep ++ join sep (z :: items)).
    rewrite Heq, <- !app_assoc. reflexivity.
Qed.

Lemma join_contains (sep x : str) (items : list str) :
  x ∈ items -> contains x (join sep items) = true.
Proof. intros H. apply contains_spec. exact (join_elem sep x items H). Qed.

Lemma contains_trans (a b c : str) :
  contains a b = true -> contains b c = true -> contains a c = true.
Proof.
  rewrite !contains_spec. intros (p1 & q1 & ->) (p2 & q2 & ->).
  exists (p2 ++ p1), (q1 ++ q2). rewrite <- !app_assoc. reflexivity.
Qed.

Lemma contains_app_r (a pre s : str) :
  contains a s = true -> contains a (pre ++ s) = true.
Proof.
  rewrite !contains_spec. intros (p & q & ->).
  exists (pre ++ p), q. rewrite <- !app_assoc. reflexivity.
Qed.

Lemma join_cons_cons (sep x y : str) (items : list str) :
  join sep (x :: y :: items) = x ++ sep ++ join sep (y :: items).
Proof. reflexivity. Qed.

Lemma starts_with_join (sep x : str) (items : list str) :
  starts_with x (join sep (x :: items)) = true.
Proof.
  destruct items as [|y items]; cbn [join].
  - rewrite <- (app_nil_r x) at 2. apply starts_with_app.
  - apply starts_with_app.
Qed.

Lemma starts_with_app_both (a w s : str) :
  starts_with (a ++ w) (a ++ s) = starts_with w s.
Proof.
  induction a as [|c a IH]; [reflexivity |].
  cbn. rewrite N.eqb_refl. exact IH.
Qed.

Lemma sorted_names_contains (x : gset str) (name : str) :
  name ∈ x -> contains name (sorted_names x) = true.
Proof.
  intros H. apply join_contains. rewrite sorted_perm. apply elem_of_elements, H.
Qed.

(** X13. A report that [render_report] returns starts with the two lines of the
    banner and shows every finding of the summary: each oscillation message
    after [  - ], each name without backticks, each control code, and each
    recommendation after [  * ]. *)
Theorem report_shows_findings :
  forall s report,
    render_report s = Ok report ->
    starts_with (u "LLM review log analysis" ++ newline
                 ++ u "========================") report = true
    /\ (forall msg, msg ∈ oscillation_messages s ->
                    contains (u "  - " ++ msg) report = true)
    /\ (forall name, name ∈ missing_backticks s -> contains name report = true)
    /\ (forall code, code ∈ unacceptable_control_codes s ->
                     contains code report = true)
    /\ (forall advice item,
          recommendations s = Ok advice -> item ∈ advice ->
          contains (u "  * " ++ item) report = true).
Proof.
  intros s report H. rewrite render_report_template in H.
  unfold report_template in H.
  apply bind_Ok in H as (processed & _ & H).
  apply bind_Ok in H as (recursion & _ & H).
  apply bind_Ok in H as (qa & _ & H).
  apply bind_Ok in H as (future & _ & H).
  apply bind_Ok in H as (draft & _ & H).
  apply bind_Ok in H as (adv & Hadv & H).
  apply Ok_inj in H. subst report.
  assert (Hline : forall x,
             x ∈ oscillation_section s ++ backticks_section s
                 ++ control_codes_section s ++ recursion ++ qa ++ future ++ draft
                 ++ adv ->
             forall item, contains item x = true ->
             contains item
               (join newline
                  (banner ++ processed ++ oscillation_section s
                   ++ backticks_section s ++ control_codes_section s
                   ++ recursion ++ qa ++ future ++ draft ++ adv)) = true).
  { intros x Hx item Hitem. apply (contains_trans _ x); [exact Hitem |].
    apply join_contains. rewrite !elem_of_app. right. right.
    rewrite !elem_of_app in Hx. exact Hx. }
  assert (Hself : forall x : str, contains x x = true).
  { intros x. apply contains_spec. exists [], []. cbn. rewrite app_nil_r.
    reflexivity. }
  split; [| split; [| split; [| split]]].
  - unfold banner.
    match goal with
    | |- context [join newline ([?a; ?b] ++ ?rest)] =>
        change ([a; b] ++ rest) with (a :: b :: rest)
    end.
    rewrite join_cons_cons, !starts_with_app_both. apply starts_with_join.
  - intros msg Hmsg. apply (Hline (u "  - " ++ msg)); [| apply Hself].
    apply elem_of_app. left. unfold oscillation_section.
    destruct (oscillation_messages s) as [|m ms] eqn:Hm; [inversion Hmsg |].
    apply elem_of_app. right. apply list_elem_of_In, List.in_map, list_elem_of_In.
    exact Hmsg.
  - intros name Hname.
    apply (Hline (u "Missing backticks around Kotlin types: "
                  ++ sorted_names (missing_backticks s))).
    + apply elem_of_app. right. apply elem_of_app. left.
      unfold backticks_section.
      destruct (decide (missing_backticks s = ∅)) as [He|_];
        [rewrite He in Hname; inversion Hname |].
      apply elem_of_cons. right. apply list_elem_of_singleton. reflexivity.
    + apply contains_app_r, sorted_names_contains, Hname.
  - intros code Hcode.
    apply (Hline (u "Control character crashes encountered: "
                  ++ sorted_names (unacceptable_control_codes s))).
    + apply elem_of_app. right. apply elem_of_app. right. apply elem_of_app. left.
      unfold control_codes_section.
      destruct (decide (unacceptable_control_codes s = ∅)) as [He|_];
        [rewrite He in Hcode; inversion Hcode |].
      apply list_elem_of_singleton. reflexivity.
    + apply contains_app_r, sorted_names_contains, Hcode.
  - intros advice item Hrec Hitem.
    unfold recommendations_section in Hadv. rewrite Hrec in Hadv.
    apply Ok_inj in Hadv. subst adv.
    apply (Hline (u "  * " ++ item)); [| apply Hself].
    rewrite !elem_of_app. do 7 right.
    destruct advice as [|a advice]; [inversion Hitem |].
    apply elem_of_app. right. apply list_elem_of_In, List.in_map, list_elem_of_In.
    exact Hitem.
Qed.

(** *** When the report cannot be rendered *)







(** *** [analyse_log_file] *)


End Interpreter.

(** ** The claims on sample inputs

    The interpreter of the samples has no decimal digit and no case mapping
    outside ASCII, and the default limit of 4300 digits. *)

(** C1 as first stated fails: the line [WARN Oscillation detected in
    validator] does not begin with the phrase, yet the detector appends an
    entry, and the entry is not the full text of the line. *)
Lemma oscillation_detector_counterexample :
  starts_with oscillation_phrase line_oscillation_inside = false
  /\ exists summary',
       analyse_line ascii_decimal ascii_lower default_max_str_digits
         empty_summary line_oscillation_inside = Ok summary'
       /\ oscillation_messages summary' = [u "Oscillation detected in validator"]
       /\ oscillation_messages summary' <> [line_oscillation_inside].
Proof.
  split; [reflexivity |].
  eexists. split; [reflexivity |]. split; [reflexivity |].
  intros H. discriminate H.
Qed.

(** A log that triggers every detector, analysed and rendered. *)
Example sample_log_report :
  analyse_lines ascii_decimal ascii_lower default_max_str_digits sample_log
  ≫= render_report default_max_str_digits
  = Ok sample_report.
Proof. vm_compute. reflexivity. Qed.

Lemma oscillation_detector_witness :
  (starts_with oscillation_phrase line_oscillation_start = true
   /\ forallb (not_char 10) line_oscillation_start = true
   /\ oscillation_entry line_oscillation_start = Some line_oscillation_start)
  /\ (oscillation_entry line_oscillation_inside
      = Some (u "Oscillation detected in validator")
      /\ exists pre post,
           line_oscillation_inside = pre ++ oscillation_phrase ++ post
           /\ (forall pre' post',
                 line_oscillation_inside = pre' ++ oscillation_phrase ++ post' ->
                 length pre <= length pre')
           /\ u "Oscillation detected in validator"
              = oscillation_phrase ++ take_while (not_char 10) post).
Proof.
  destruct (oscillation_detector_first_occurrence
              ascii_decimal ascii_lower default_max_str_digits)
    as (_ & _ & Hentry & Hfull & _).
  split.
  - split; [reflexivity |]. split; [reflexivity |].
    apply Hfull; reflexivity.
  - split; [reflexivity |]. apply Hentry. reflexivity.
Defined.

Lemma notes_processed_last_integer_witness :
  contains (u "Notes Processed") line_processed_120 = true
  /\ exists summary',
       analyse_line ascii_decimal ascii_lower default_max_str_digits
         empty_summary line_processed_120 = Ok summary'
       /\ notes_processed summary'
          = overwrite (notes_processed empty_summary)
              (last_int ascii_decimal default_max_str_digits line_processed_120).
Proof.
  split; [reflexivity |].
  apply (proj1 (notes_processed_last_integer
                  ascii_decimal ascii_lower default_max_str_digits)).
  reflexivity.
Defined.

Lemma malformed_metric_line_witness :
  Forall (fun token => token_value ascii_decimal default_max_str_digits token = None)
    (split line_processed_none)
  /\ exists summary',
       analyse_line ascii_decimal ascii_lower default_max_str_digits
         summary_25_of_100 line_processed_none = Ok summary'
       /\ notes_processed summary' = notes_processed summary_25_of_100
       /\ notes_with_errors summary' = notes_with_errors summary_25_of_100.
Proof.
  assert (H : Forall (fun token =>
                        token_value ascii_decimal default_max_str_digits token = None)
                (split line_processed_none)).
  { apply last_omap_None. vm_compute. reflexivity. }
  split; [exact H |].
  exact (proj1 (malformed_metric_line_ignored
                  ascii_decimal ascii_lower default_max_str_digits)
           summary_25_of_100 line_processed_none H).
Defined.

Lemma notes_with_errors_metric_witness :
  errors_metric ascii_decimal default_max_str_digits line_errors_7 = Some 7%Z
  /\ contains (u "Errors") line_errors_7 = true
  /\ contains (u "Metric") line_errors_7 = false
  /\ exists before token after,
       split line_errors_7 = before ++ token :: after
       /\ token_value ascii_decimal default_max_str_digits token = Some 7%Z
       /\ Forall (fun t => token_value ascii_decimal default_max_str_digits t = None)
            after.
Proof.
  split; [reflexivity |].
  apply (proj1 (proj2 (notes_with_errors_metric
                         ascii_decimal ascii_lower default_max_str_digits))
           line_errors_7 7%Z).
  reflexivity.
Defined.

Lemma division_unguarded_witness :
  notes_processed summary_1_of_0 = Some 0%Z
  /\ notes_with_errors summary_1_of_0 = Some 1%Z
  /\ (0 < 1)%Z
  /\ recommendations default_max_str_digits summary_1_of_0 = Raise ZeroDivisionError
  /\ exists e, render_report default_max_str_digits summary_1_of_0 = Raise e.
Proof.
  split; [reflexivity |]. split; [reflexivity |]. split; [lia |].
  apply (proj1 (division_unguarded_against_zero default_max_str_digits)
           summary_1_of_0 1%Z); [reflexivity | reflexivity | lia].
Defined.

Lemma render_report_section_order_witness :
  [u "Flow"; u "StateFlow"] ≡ₚ elements ({[ u "StateFlow"; u "Flow" ]} : gset str)
  /\ join (u ", ") (sorted [u "Flow"; u "StateFlow"])
     = sorted_names {[ u "StateFlow"; u "Flow" ]}.
Proof.
  assert (H : [u "Flow"; u "StateFlow"]
              ≡ₚ elements ({[ u "StateFlow"; u "Flow" ]} : gset str)).
  { apply NoDup_Permutation.
    - apply NoDup_cons. split; [| apply NoDup_singleton].
      intros Hin. apply list_elem_of_singleton in Hin. discriminate Hin.
    - apply NoDup_elements.
    - intros name.
      rewrite elem_of_elements, elem_of_union, !elem_of_singleton,
        elem_of_cons, list_elem_of_singleton.
      tauto. }
  split; [exact H |].
  exact (proj1 (proj2 (proj2 (render_report_section_order default_max_str_digits)))
           _ _ H).
Defined.

Lemma splitting_invariance_witness :
  Forall no_linebreak [line_processed_120; line_errors_7]
  /\ analyse_log_text ascii_decimal ascii_lower default_max_str_digits
       (join newline [line_processed_120; line_errors_7])
     = analyse_lines ascii_decimal ascii_lower default_max_str_digits
         [line_processed_120; line_errors_7].
Proof.
  assert (H : Forall no_linebreak [line_processed_120; line_errors_7]).
  { apply Forall_forall. intros line Hline. apply Forall_forall. intros c Hc.
    apply list_elem_of_In in Hline. apply list_elem_of_In in Hc.
    destruct (Py_UNICODE_ISLINEBREAK c) eqn:Hb; [| reflexivity].
    assert (Hall : forallb (forallb (fun c => negb (Py_UNICODE_ISLINEBREAK c)))
                     [line_processed_120; line_errors_7] = true)
      by (vm_compute; reflexivity).
    rewrite forallb_forall in Hall. specialize (Hall _ Hline).
    rewrite forallb_forall in Hall. specialize (Hall _ Hc).
    rewrite Hb in Hall. discriminate Hall. }
  split; [exact H |].
  exact (proj2 (splitting_invariance ascii_decimal ascii_lower default_max_str_digits)
           _ H).
Defined.

(** ** The further properties on sample inputs *)

Lemma analyse_lines_permutation_witness :
  [line_recursion_25; line_backticks_flow] ≡ₚ [line_backticks_flow; line_recursion_25]
  /\ exists s s',
       analyse_lines ascii_decimal ascii_lower default_max_str_digits
         [line_recursion_25; line_backticks_flow] = Ok s
       /\ analyse_lines ascii_decimal ascii_lower default_max_str_digits
            [line_backticks_flow; line_recursion_25] = Ok s'
       /\ recursion_limit_hits s = recursion_limit_hits s'
       /\ qa_verification_none_errors s = qa_verification_none_errors s'
       /\ draft_status_notes s = draft_status_notes s'
       /\ future_dated_metadata_notes s = future_dated_metadata_notes s'
       /\ missing_backticks s = missing_backticks s'
       /\ unacceptable_control_codes s = unacceptable_control_codes s'.
Proof.
  split; [apply perm_swap |].
  apply (analyse_lines_permutation ascii_decimal ascii_lower default_max_str_digits).
  apply perm_swap.
Defined.

Lemma missing_backticks_detector_witness :
  suffix_from (u "Type name '") line_backticks_flow
  = Some (u "Type name '" ++ u "Flow" ++ u "' found without backticks" ++ [])
  /\ u "Flow" <> []
  /\ forallb (not_char 39) (u "Flow") = true
  /\ backticks_name line_backticks_flow = Some (u "Flow").
Proof.
  split; [reflexivity |]. split; [discriminate |]. split; [reflexivity |].
  apply (proj1 (proj2 (proj2 (missing_backticks_detector
                                ascii_decimal ascii_lower default_max_str_digits)))
           line_backticks_flow (u "Flow") []);
    [reflexivity | discriminate | reflexivity].
Defined.

Lemma control_code_detector_witness :
  control_code line_control_00AF = Some (u "00af")
  /\ exists pre digits post,
       line_control_00AF = pre ++ u "unacceptable character #x" ++ digits ++ post
       /\ length digits = 4 /\ forallb is_hex digits = true
       /\ u "00af" = lower digits.
Proof.
  split; [reflexivity |].
  apply (proj1 (control_code_detector
                  ascii_decimal ascii_lower default_max_str_digits)).
  reflexivity.
Defined.

Lemma recursion_limit_detector_witness :
  (exists pre digits post,
      line_recursion_25
      = pre ++ u "Recursion limit of " ++ digits ++ u " reached" ++ post
      /\ digits <> [] /\ forallb (Py_UNICODE_ISDECIMAL ascii_decimal) digits = true)
  /\ fires (_RECURSION_LIMIT_RE ascii_decimal) line_recursion_25 = true.
Proof.
  assert (H : exists pre digits post,
             line_recursion_25
             = pre ++ u "Recursion limit of " ++ digits ++ u " reached" ++ post
             /\ digits <> []
             /\ forallb (Py_UNICODE_ISDECIMAL ascii_decimal) digits = true).
  { exists (u "GraphRecursionError: "), (u "25"), [].
    split; [reflexivity |]. split; [discriminate | reflexivity]. }
  split; [exact H |].
  apply (proj1 (recursion_limit_detector
                  ascii_decimal ascii_lower default_max_str_digits)).
  exact H.
Defined.

Lemma qa_none_detector_witness :
  contains (u "argument of type 'NoneType' is not iterable") line_qa_none = true
  /\ exists pre post,
       line_qa_none
       = pre ++ u "argument of type 'NoneType' is not iterable" ++ post.
Proof.
  split; [reflexivity |].
  apply (proj1 (qa_none_detector ascii_decimal ascii_lower default_max_str_digits)).
  reflexivity.
Defined.

Lemma is_ascii_samples :
  is_ascii line_draft_upper /\ is_ascii line_future_looking.
Proof.
  assert (H : forall line,
             forallb (fun c => (c <? 128)%N) line = true -> is_ascii line).
  { intros line Hl. apply Forall_forall. intros c Hc.
    rewrite forallb_forall in Hl. apply N.ltb_lt, Hl, list_elem_of_In, Hc. }
  split; apply H; reflexivity.
Qed.

Lemma draft_status_detector_witness :
  is_ascii line_draft_upper
  /\ fires (_STATUS_DRAFT_RE ascii_lower) line_draft_upper
     = contains (u "status set to 'draft'") (lower line_draft_upper)
  /\ contains (u "status set to 'draft'") (lower line_draft_upper) = true.
Proof.
  split; [exact (proj1 is_ascii_samples) |].
  split; [| reflexivity].
  apply (proj1 (proj2 (draft_status_detector
                         ascii_decimal ascii_lower default_max_str_digits))).
  exact (proj1 is_ascii_samples).
Defined.

Lemma future_date_detector_witness :
  is_ascii line_future_looking
  /\ fires (_FUTURE_DATE_RE ascii_lower) line_future_looking
     = contains (u "future date") (lower line_future_looking)
       || contains (u "future-looking date") (lower line_future_looking)
  /\ contains (u "future-looking date") (lower line_future_looking) = true.
Proof.
  split; [exact (proj2 is_ascii_samples) |].
  split; [| reflexivity].
  apply (proj1 (future_date_detector
                  ascii_decimal ascii_lower default_max_str_digits)).
  exact (proj2 is_ascii_samples).
Defined.

Lemma analyse_log_text_line_breaks_witness :
  line_break [13%N; 10%N]
  /\ Forall no_linebreak [line_recursion_25; line_backticks_flow]
  /\ analyse_log_text ascii_decimal ascii_lower default_max_str_digits
       (join [13%N; 10%N] [line_recursion_25; line_backticks_flow])
     = analyse_lines ascii_decimal ascii_lower default_max_str_digits
         [line_recursion_25; line_backticks_flow].
Proof.
  assert (Hsep : line_break [13%N; 10%N]) by (left; reflexivity).
  assert (H : Forall no_linebreak [line_recursion_25; line_backticks_flow]).
  { apply Forall_forall. intros line Hline. apply Forall_forall. intros c Hc.
    apply list_elem_of_In in Hline. apply list_elem_of_In in Hc.
    destruct (Py_UNICODE_ISLINEBREAK c) eqn:Hb; [| reflexivity].
    assert (Hall : forallb (forallb (fun c => negb (Py_UNICODE_ISLINEBREAK c)))
                     [line_recursion_25; line_backticks_flow] = true)
      by (vm_compute; reflexivity).
    rewrite forallb_forall in Hall. specialize (Hall _ Hline).
    rewrite forallb_forall in Hall. specialize (Hall _ Hc).
    rewrite Hb in Hall. discriminate Hall. }
  split; [exact Hsep |]. split; [exact H |].
  exact (proj1 (analyse_log_text_line_breaks
                  ascii_decimal ascii_lower default_max_str_digits)
           _ _ Hsep H).
Defined.


Lemma report_shows_findings_witness :
  render_report default_max_str_digits
    (scan_summary ascii_decimal ascii_lower default_max_str_digits sample_log)
  = Ok sample_report
  /\ starts_with (u "LLM review log analysis" ++ newline
                  ++ u "========================") sample_report = true
  /\ (forall name,
        name ∈ missing_backticks
                 (scan_summary ascii_decimal ascii_lower default_max_str_digits
                    sample_log) ->
        contains name sample_report = true).
Proof.
  assert (H : render_report default_max_str_digits
                (scan_summary ascii_decimal ascii_lower default_max_str_digits
                   sample_log)
              = Ok sample_report) by (vm_compute; reflexivity).
  split; [exact H |].
  destruct (report_shows_findings default_max_str_digits _ _ H)
    as (Hbanner & _ & Hnames & _).
  split; [exact Hbanner | exact Hnames].
Defined.


